(** * PayPal MCP server: credential lifecycle, error handling and tool handlers

    A shallow embedding of [services/auth.service.ts] (class
    [PayPalAuthService]) and of the tool handlers [getUserInfo]
    ([tools/user.tools.ts]) and [createSubscription]
    ([tools/payment.tools.ts]).

    An [async] method is embedded as a finite tree of effects ([proc]): reads
    and writes of [this.tokenData], readings of [Date.now()], log writes and
    the network calls on which the method suspends.  Two interpreters give
    the trees their meaning: [exec] runs one call to completion against a
    provider, and [Loop] interleaves many calls the way the single-threaded
    event loop does, one synchronous segment at a time. *)

From Stdlib Require Import ZArith List String Ascii Bool Lia.
Import ListNotations.

Set Warnings "-register-all".

Local Open Scope string_scope.
Local Open Scope Z_scope.

(* ------------------------------------------------------------------ *)
(** ** JavaScript values that cross the HTTP boundary *)

Module JS.

(** A JSON document.  A number is carried by the decimal text that
    [String(n)] prints for it (["0"] for both zeroes), the only two things
    the program does with a number inside a response body being to test
    its truthiness and to splice it into a template literal.  An object
    is the list of its own properties in insertion order. *)
Inductive json : Type :=
| JNull
| JBool (b : bool)
| JNum (repr : string)
| JStr (s : string)
| JArr (items : list json)
| JObj (fields : list (string * json)).

(** Own-property lookup in a property list. *)
Fixpoint lookup (k : string) (fs : list (string * json)) : option json :=
  match fs with
  | [] => None
  | (k', v) :: rest => if String.eqb k k' then Some v else lookup k rest
  end.

(** [v.k] for a non-nullish [v]; [None] is [undefined].  Only the keys
    [error_description], [message], [access_token] and [plan_id] are ever
    read, none of which a string, number, boolean or array carries. *)
Definition get_prop (v : json) (k : string) : option json :=
  match v with
  | JObj fs => lookup k fs
  | _ => None
  end.

(** ToBoolean. *)
Definition truthy (v : json) : bool :=
  match v with
  | JNull => false
  | JBool b => b
  | JNum r => negb (String.eqb r "0")
  | JStr s => negb (String.eqb s "")
  | JArr _ | JObj _ => true
  end.

Definition truthy_opt (o : option json) : bool :=
  match o with
  | Some v => truthy v
  | None => false
  end.

Fixpoint join (sep : string) (l : list string) : string :=
  match l with
  | [] => ""
  | [s] => s
  | s :: rest => s ++ sep ++ join sep rest
  end.

(** ToString, as applied by a template literal [`${v}`]. *)
Fixpoint to_string (v : json) : string :=
  match v with
  | JNull => "null"
  | JBool true => "true"
  | JBool false => "false"
  | JNum r => r
  | JStr s => s
  | JArr l =>
      join "," (map (fun x => match x with
                              | JNull => ""
                              | _ => to_string x
                              end) l)
  | JObj _ => "[object Object]"
  end.

Definition template (o : option json) : string :=
  match o with
  | Some v => to_string v
  | None => "undefined"
  end.

(** [const { k, ...rest } = obj]: the properties of [obj] other than [k],
    in their order. *)
Definition omit (k : string) (fs : list (string * json))
  : list (string * json) :=
  filter (fun kv => negb (String.eqb k (fst kv))) fs.

End JS.

Import JS.

(* ------------------------------------------------------------------ *)
(** ** Text helpers *)

Module Text.

Definition lower_ascii (c : ascii) : ascii :=
  let n := nat_of_ascii c in
  if (Nat.leb 65 n && Nat.leb n 90)%bool then ascii_of_nat (n + 32) else c.

Fixpoint toLowerCase (s : string) : string :=
  match s with
  | EmptyString => EmptyString
  | String c r => String (lower_ascii c) (toLowerCase r)
  end.

(** [s.includes(p)] *)
Fixpoint includes (p s : string) : bool :=
  if prefix p s then true
  else match s with
       | EmptyString => false
       | String _ r => includes p r
       end.

(** [Buffer.from(s).toString('base64')], on the bytes of [s]. *)
Definition b64_alphabet : string :=
  "ABCDEFGHIJKLMNOPQRSTUVWXYZabcdefghijklmnopqrstuvwxyz0123456789+/".

Definition b64_digit (n : nat) : ascii :=
  match get n b64_alphabet with
  | Some c => c
  | None => "="%char
  end.

Fixpoint b64_encode (bytes : list nat) : string :=
  match bytes with
  | [] => ""
  | [a] =>
      String (b64_digit (a / 4))
     (String (b64_digit (a mod 4 * 16)) "==")
  | [a; b] =>
      String (b64_digit (a / 4))
     (String (b64_digit (a mod 4 * 16 + b / 16))
     (String (b64_digit (b mod 16 * 4)) "="))
  | a :: b :: c :: rest =>
      String (b64_digit (a / 4))
     (String (b64_digit (a mod 4 * 16 + b / 16))
     (String (b64_digit (b mod 16 * 4 + c / 64))
     (String (b64_digit (c mod 64)) (b64_encode rest))))
  end%nat.

Definition base64 (s : string) : string :=
  b64_encode (map nat_of_ascii (list_ascii_of_string s)).

End Text.

(* ------------------------------------------------------------------ *)
(** ** The logging sanitizer ([utils/validation.ts]) *)

Module Validation.

(** Modelled from the spec: the secret-like key patterns, which the
    missing [utils/validation.ts] holds; these are the ones section 4.2
    lists. *)
Definition secret_patterns : list string :=
  ["secret"; "token"; "password"; "security_code"; "number"; "cvv"].

(** Modelled from the spec: a key matches a pattern case-insensitively,
    that is when, case folded, it contains the pattern. *)
Definition key_matches (k : string) : bool :=
  existsb (fun p => Text.includes p (Text.toLowerCase k)) secret_patterns.

(** Modelled from the spec: the fixed mask that replaces a secret value.
    The specification does not spell it; nothing proved below depends on
    its spelling. *)
Definition MASK : json := JStr "[REDACTED]".

(** Modelled from the spec: [sanitizeForLogging] of
    [utils/validation.ts], which every handler imports and which is not
    among the sources.  Section 4.2 (redaction contract): recursively
    mask the fields whose keys case-insensitively match a secret-like
    pattern, replacing their values with a fixed mask. *)
Fixpoint sanitizeForLogging (v : json) : json :=
  match v with
  | JArr l => JArr (map sanitizeForLogging l)
  | JObj fs =>
      JObj (map (fun kv =>
                   (fst kv,
                    if key_matches (fst kv) then MASK
                    else sanitizeForLogging (snd kv))) fs)
  | _ => v
  end.

(** Navigation inside a document, to speak about a field at any depth. *)
Inductive step : Type :=
| Key (k : string)
| Idx (i : nat).

Fixpoint at_path (v : json) (p : list step) : option json :=
  match p with
  | [] => Some v
  | Key k :: p' =>
      match v with
      | JObj fs =>
          match lookup k fs with
          | Some x => at_path x p'
          | None => None
          end
      | _ => None
      end
  | Idx i :: p' =>
      match v with
      | JArr l =>
          match nth_error l i with
          | Some x => at_path x p'
          | None => None
          end
      | _ => None
      end
  end.

(** No key along the path is secret-like. *)
Definition clear_step (s : step) : bool :=
  match s with
  | Key k => negb (key_matches k)
  | Idx _ => true
  end.

End Validation.

(* ------------------------------------------------------------------ *)
(** ** HTTP requests, responses and thrown values *)

Module Http.

Inductive method : Type := GET | POST.

(** An axios request configuration.  [baseURL] is absent for a call made
    through the global [axios] object. *)
Record request : Type := {
  baseURL : option string;
  url : string;
  meth : method;
  headers : list (string * string);
  body : option json;
}.

(** The address a request is sent to. *)
Definition target (r : request) : string :=
  match baseURL r with
  | Some b => b ++ url r
  | None => url r
  end.

Definition header (name : string) (r : request) : option string :=
  match find (fun h => String.eqb name (fst h)) (headers r) with
  | Some h => Some (snd h)
  | None => None
  end.

(** Per-request headers override an instance's defaults. *)
Definition merge_headers (defaults overrides : list (string * string))
  : list (string * string) :=
  filter (fun d => negb (existsb (fun o => String.eqb (fst o) (fst d))
                                 overrides)) defaults
  ++ overrides.

Record response (D : Type) : Type := {
  status : Z;
  response_headers : list (string * string);
  data : D;
}.
Arguments status {D}.
Arguments response_headers {D}.
Arguments data {D}.

(** What a [catch] clause or a rejection handler can receive: an error
    made by axios (with the request configuration and, when the provider
    answered, its response), or a plain [Error]. *)
Inductive thrown : Type :=
| AxiosError (message : string) (config : option request)
             (resp : option (response json))
| Error (message : string).

(** [error.message] *)
Definition message_of (e : thrown) : string :=
  match e with
  | AxiosError m _ _ => m
  | Error m => m
  end.

(** How a network call settles. *)
Inductive outcome (D : Type) : Type :=
| Fulfilled (r : response D)
| Rejected (e : thrown).
Arguments Fulfilled {D}.
Arguments Rejected {D}.

End Http.

Import Http.

(* ------------------------------------------------------------------ *)
(** ** Asynchronous methods as effect trees *)

Module Async.

Inductive level : Type := LInfo | LDebug | LError.

(** What is handed to the logger after the message text. *)
Inductive log_arg : Type :=
| LValue (v : json)
| LThrown (e : thrown)
| LApiError (status : option Z) (data : option json)
            (url : option string) (method : option Http.method).

Record log_entry : Type := {
  log_level : level;
  log_text : string;
  log_args : list log_arg;
}.

(** Token response from PayPal, with the [expiration] the service adds. *)
Record TokenResponse : Type := {
  access_token : string;
  token_type : string;
  app_id : string;
  expires_in : Z;
  nonce : string;
  scope : string;
  expiration : option Z;
}.

(** The effects of a method of the service or of a tool handler.  The two
    [Await] nodes are the suspension points: [AwaitToken] is
    [post<TokenResponse>], [Await] a call whose response data is [any]. *)
Inductive proc (A : Type) : Type :=
| Ret (a : A)
| Throw (e : thrown)
| GetToken (k : option TokenResponse -> proc A)
| SetToken (t : option TokenResponse) (k : proc A)
| DateNow (k : Z -> proc A)
| Log (entry : log_entry) (k : proc A)
| AwaitToken (req : request) (k : outcome TokenResponse -> proc A)
| Await (req : request) (k : outcome json -> proc A).
Arguments Ret {A}.
Arguments Throw {A}.
Arguments GetToken {A}.
Arguments SetToken {A}.
Arguments DateNow {A}.
Arguments Log {A}.
Arguments AwaitToken {A}.
Arguments Await {A}.

Fixpoint bind {A B : Type} (p : proc A) (f : A -> proc B) : proc B :=
  match p with
  | Ret a => f a
  | Throw e => Throw e
  | GetToken k => GetToken (fun t => bind (k t) f)
  | SetToken t k => SetToken t (bind k f)
  | DateNow k => DateNow (fun n => bind (k n) f)
  | Log l k => Log l (bind k f)
  | AwaitToken r k => AwaitToken r (fun o => bind (k o) f)
  | Await r k => Await r (fun o => bind (k o) f)
  end.

(** [try { p } catch (error) { h error }] *)
Fixpoint try_catch {A : Type} (p : proc A) (h : thrown -> proc A) : proc A :=
  match p with
  | Ret a => Ret a
  | Throw e => h e
  | GetToken k => GetToken (fun t => try_catch (k t) h)
  | SetToken t k => SetToken t (try_catch k h)
  | DateNow k => DateNow (fun n => try_catch (k n) h)
  | Log l k => Log l (try_catch k h)
  | AwaitToken r k => AwaitToken r (fun o => try_catch (k o) h)
  | Await r k => Await r (fun o => try_catch (k o) h)
  end.

Definition logger (lv : level) (text : string) (args : list log_arg)
  : proc unit :=
  Log {| log_level := lv; log_text := text; log_args := args |} (Ret tt).

Declare Scope proc_scope.
Delimit Scope proc_scope with proc.
Notation "x <- p ;; q" := (bind p (fun x => q))
  (at level 61, p at next level, right associativity) : proc_scope.
Notation "p ;; q" := (bind p (fun _ => q))
  (at level 61, right associativity) : proc_scope.

(** How a call ends. *)
Inductive settled (A : Type) : Type :=
| Resolved (a : A)
| Raised (e : thrown).
Arguments Resolved {A}.
Arguments Raised {A}.

(** The message of the error a call ended with, if it ended with one. *)
Definition raised_message {A : Type} (r : settled A) : option string :=
  match r with
  | Raised e => Some (message_of e)
  | Resolved _ => None
  end.

(** *** Running one call to completion *)

(** The provider and the clock as one call sees them: the answer to the
    [n]-th request put on the wire, and the reading of [Date.now()] in the
    segment that runs once [n] requests have been made (milliseconds since
    the epoch, exact in a JavaScript number). *)
Record network : Type := {
  token_endpoint : nat -> request -> outcome TokenResponse;
  api : nat -> request -> outcome json;
  clock : nat -> Z;
}.

(** The instance field [tokenData], the requests sent so far and the log. *)
Record world : Type := {
  tokenData : option TokenResponse;
  sent : list request;
  logs : list log_entry;
}.

Definition set_tokenData (t : option TokenResponse) (w : world) : world :=
  {| tokenData := t; sent := sent w; logs := logs w |}.

Definition add_log (l : log_entry) (w : world) : world :=
  {| tokenData := tokenData w; sent := sent w; logs := logs w ++ [l] |}.

Definition send (r : request) (w : world) : world :=
  {| tokenData := tokenData w; sent := sent w ++ [r]; logs := logs w |}.

Fixpoint exec {A : Type} (net : network) (p : proc A) (w : world)
  : world * settled A :=
  match p with
  | Ret a => (w, Resolved a)
  | Throw e => (w, Raised e)
  | GetToken k => exec net (k (tokenData w)) w
  | SetToken t k => exec net k (set_tokenData t w)
  | DateNow k => exec net (k (clock net (List.length (sent w)))) w
  | Log l k => exec net k (add_log l w)
  | AwaitToken r k =>
      exec net (k (token_endpoint net (List.length (sent w)) r)) (send r w)
  | Await r k =>
      exec net (k (api net (List.length (sent w)) r)) (send r w)
  end.

(** Two worlds that differ in their logs only. *)
Definition same_state (w1 w2 : world) : Prop :=
  tokenData w1 = tokenData w2 /\ sent w1 = sent w2.

End Async.

Import Async.

(* ------------------------------------------------------------------ *)
(** ** [services/auth.service.ts] *)

Module Auth.

Import Validation.
Local Open Scope proc_scope.

Inductive environment : Type := sandbox | live.

(** Authentication options *)
Record PayPalAuthOptions : Type := {
  options_clientId : string;
  options_clientSecret : string;
  options_environment : environment;
}.

(** The fields of a [PayPalAuthService] that the constructor sets once.
    The one mutable field, [tokenData], lives in the [world]. *)
Record PayPalAuthService : Type := {
  clientId : string;
  clientSecret : string;
  baseUrl : string;
}.

(** 5 minutes buffer before expiration *)
Definition tokenExpiryBuffer : Z := 300.

Definition new (options : PayPalAuthOptions) : PayPalAuthService :=
  {| clientId := options_clientId options;
     clientSecret := options_clientSecret options;
     baseUrl := match options_environment options with
                | sandbox => "https://api-m.sandbox.paypal.com"
                | live => "https://api-m.paypal.com"
                end |}.

Definition getBaseUrl (this : PayPalAuthService) : string := baseUrl this.

(** Handle request errors: the rejection handler of both clients.
    [axios.isAxiosError(error)] holds of the [AxiosError] values. *)
Definition handleRequestError {A : Type} (error : thrown) : proc A :=
  let generic :=
    logger LError "Unexpected error in PayPal API request:" [LThrown error] ;;
    Throw error in
  match error with
  | AxiosError _ config resp =>
      let status := option_map status resp in
      let data := option_map data resp in
      logger LError "PayPal API error:"
        [LApiError status (option_map sanitizeForLogging data)
                   (option_map url config) (option_map meth config)] ;;
      if match status with Some s => s =? 401 | None => false end then
        SetToken None
          (Throw (Error
             "Authentication failed with PayPal API. Token may have expired."))
      else if (truthy_opt data
               && truthy_opt (match data with
                              | Some d => get_prop d "error_description"
                              | None => None
                              end))%bool then
        Throw (Error ("PayPal API error: "
                      ++ template (match data with
                                   | Some d => get_prop d "error_description"
                                   | None => None
                                   end)))
      else if (truthy_opt data
               && truthy_opt (match data with
                              | Some d => get_prop d "message"
                              | None => None
                              end))%bool then
        Throw (Error ("PayPal API error: "
                      ++ template (match data with
                                   | Some d => get_prop d "message"
                                   | None => None
                                   end)))
      else generic
  | Error _ => generic
  end.

(** The headers [this.httpClient] was created with. *)
Definition httpClient_headers : list (string * string) :=
  [("Accept", "application/json"); ("Content-Type", "application/json")].

(** The credential-exchange request. *)
Definition token_request (this : PayPalAuthService) : request :=
  let auth := Text.base64 (clientId this ++ ":" ++ clientSecret this) in
  {| baseURL := Some (baseUrl this);
     url := "/v1/oauth2/token";
     meth := POST;
     headers := merge_headers httpClient_headers
                  [("Authorization", "Basic " ++ auth);
                   ("Content-Type", "application/x-www-form-urlencoded")];
     body := Some (JStr "grant_type=client_credentials") |}.

(** [{ ...response.data, expiration: e }] *)
Definition with_expiration (t : TokenResponse) (e : Z) : TokenResponse :=
  {| access_token := access_token t;
     token_type := token_type t;
     app_id := app_id t;
     expires_in := expires_in t;
     nonce := nonce t;
     scope := scope t;
     expiration := Some e |}.

(** Get a new access token from PayPal *)
Definition getAccessToken (this : PayPalAuthService) : proc string :=
  try_catch
    (response <- AwaitToken (token_request this)
                   (fun o => match o with
                             | Fulfilled r => Ret r
                             | Rejected error => handleRequestError error
                             end) ;;
     now <- DateNow Ret ;;
     let t := with_expiration (data response)
                (now + expires_in (data response) * 1000) in
     SetToken (Some t) (Ret tt) ;;
     logger LDebug "Obtained new PayPal access token" [] ;;
     Ret (access_token t))
    (fun error =>
       logger LError "Failed to obtain PayPal access token:" [LThrown error] ;;
       Throw (Error "Failed to authenticate with PayPal API")).

(** Ensure we have a valid access token.  The three conjuncts of the test
    are taken in order: [this.tokenData], then [this.tokenData.expiration]
    (a number is falsy when it is zero), then, only if both hold, the
    comparison with [Date.now()]. *)
Definition ensureAccessToken (this : PayPalAuthService) : proc string :=
  cached <- GetToken Ret ;;
  match cached with
  | Some t =>
      match expiration t with
      | Some e =>
          if e =? 0 then getAccessToken this
          else
            now <- DateNow Ret ;;
            if now <? e - tokenExpiryBuffer * 1000
            then Ret (access_token t)
            else getAccessToken this
      | None => getAccessToken this
      end
  | None => getAccessToken this
  end.

(** Verify PayPal credentials by attempting to get a token *)
Definition verifyCredentials (this : PayPalAuthService) : proc bool :=
  try_catch
    (getAccessToken this ;;
     logger LInfo "PayPal credentials verified successfully" [] ;;
     Ret true)
    (fun error =>
       logger LError "Failed to verify PayPal credentials:" [LThrown error] ;;
       Throw (Error
         "Invalid PayPal credentials. Please check your client ID and secret.")).

(** An axios instance made by [getAuthenticatedClient]. *)
Record client : Type := {
  client_baseURL : string;
  client_headers : list (string * string);
}.

(** Get an authenticated HTTP client *)
Definition getAuthenticatedClient (this : PayPalAuthService) : proc client :=
  ensureAccessToken this ;;
  cached <- GetToken Ret ;;
  Ret {| client_baseURL := baseUrl this;
         client_headers :=
           [("Authorization",
             "Bearer " ++ match cached with
                          | Some t => access_token t
                          | None => "undefined"
                          end);
            ("Content-Type", "application/json")] |}.

(** The request [c.post(path, payload)] / [c.get(path)] puts on the wire. *)
Definition client_request (c : client) (m : method) (path : string)
  (payload : option json) : request :=
  {| baseURL := Some (client_baseURL c);
     url := path;
     meth := m;
     headers := client_headers c;
     body := payload |}.

(** A call through an authenticated client, with its response interceptor. *)
Definition client_call (c : client) (m : method) (path : string)
  (payload : option json) : proc (response json) :=
  Await (client_request c m path payload)
    (fun o => match o with
              | Fulfilled r => Ret r
              | Rejected error => handleRequestError error
              end).

End Auth.

(* ------------------------------------------------------------------ *)
(** ** Tool handlers *)

Module Tools.

Import Validation Auth.
Local Open Scope proc_scope.

(** [error instanceof Error ? error.message : String(error)]: both kinds of
    thrown value are [Error] objects. *)
Definition describe (e : thrown) : string := message_of e.

(** Get User Info ([tools/user.tools.ts]).  [args] is the property list of
    the argument object. *)
Definition getUserInfo (args : list (string * json))
  (authService : PayPalAuthService) : proc json :=
  let access_token := lookup "access_token" args in
  logger LInfo "Getting user info" [] ;;
  logger LDebug "User info args:" [LValue (sanitizeForLogging (JObj args))] ;;
  try_catch
    (response <- Await
        {| baseURL := None;
           url := "https://api-m.paypal.com/v1/identity/oauth2/userinfo?schema=paypalv1.1";
           meth := GET;
           headers := [("Authorization", "Bearer " ++ template access_token);
                       ("Content-Type", "application/json")];
           body := None |}
        (fun o => match o with
                  | Fulfilled r => Ret r
                  | Rejected error => Throw error
                  end) ;;
     Ret (data response))
    (fun error =>
       logger LError "Error getting user info:" [LThrown error] ;;
       Throw (Error ("Failed to get user info: " ++ describe error))).

(** Create Subscription ([tools/payment.tools.ts]) *)
Definition createSubscription (args : list (string * json))
  (authService : PayPalAuthService) : proc json :=
  let plan_id := lookup "plan_id" args in
  let rest := omit "plan_id" args in
  logger LInfo ("Creating subscription for plan: " ++ template plan_id) [] ;;
  logger LDebug "Subscription args:"
    [LValue (sanitizeForLogging (JObj args))] ;;
  client <- getAuthenticatedClient authService ;;
  try_catch
    (response <- client_call client POST "/v1/billing/subscriptions"
                   (Some (JObj rest)) ;;
     Ret (data response))
    (fun error =>
       logger LError
         ("Error creating subscription for plan " ++ template plan_id ++ ":")
         [LThrown error] ;;
       Throw (Error ("Failed to create subscription: " ++ describe error))).

End Tools.

(* ------------------------------------------------------------------ *)
(** ** Concurrent calls on the event loop *)

Module Loop.

Import Auth.

(** A call in flight: settled, or suspended on a network call with the
    rest of its body as continuation. *)
Inductive task (A : Type) : Type :=
| Done (r : settled A)
| OnToken (k : outcome TokenResponse -> proc A)
| OnData (k : outcome json -> proc A).
Arguments Done {A}.
Arguments OnToken {A}.
Arguments OnData {A}.

(** One synchronous segment: the body runs, nothing else interleaving,
    until it settles or reaches its next [await] on the network, at which
    point its request is on the wire.  [now] is what [Date.now()] reads. *)
Fixpoint segment {A : Type} (now : Z) (p : proc A) (w : world)
  : world * task A :=
  match p with
  | Ret a => (w, Done (Resolved a))
  | Throw e => (w, Done (Raised e))
  | GetToken k => segment now (k (tokenData w)) w
  | SetToken t k => segment now k (set_tokenData t w)
  | DateNow k => segment now (k now) w
  | Log l k => segment now k (add_log l w)
  | AwaitToken r k => (send r w, OnToken k)
  | Await r k => (send r w, OnData k)
  end.

(** The service instance shared by all calls, and the calls made so far
    in the order of their invocation. *)
Record system (A : Type) : Type := {
  shared : world;
  calls : list (task A);
}.
Arguments shared {A}.
Arguments calls {A}.

Inductive event : Type :=
| Invoke (now : Z)
| TokenArrives (i : nat) (now : Z) (o : outcome TokenResponse)
| DataArrives (i : nat) (now : Z) (o : outcome json).

Fixpoint replace {X : Type} (i : nat) (x : X) (l : list X) : list X :=
  match l, i with
  | [], _ => []
  | _ :: r, O => x :: r
  | y :: r, S j => y :: replace j x r
  end.

(** What one event does: a caller invokes [entry], or the answer to the
    request of call [i] arrives and that call resumes.  An answer for a call
    that is not waiting for it is dropped. *)
Definition step {A : Type} (entry : proc A) (s : system A) (ev : event)
  : system A :=
  match ev with
  | Invoke now =>
      let (w, t) := segment now entry (shared s) in
      {| shared := w; calls := calls s ++ [t] |}
  | TokenArrives i now o =>
      match nth_error (calls s) i with
      | Some (OnToken k) =>
          let (w, t) := segment now (k o) (shared s) in
          {| shared := w; calls := replace i t (calls s) |}
      | _ => s
      end
  | DataArrives i now o =>
      match nth_error (calls s) i with
      | Some (OnData k) =>
          let (w, t) := segment now (k o) (shared s) in
          {| shared := w; calls := replace i t (calls s) |}
      | _ => s
      end
  end.

Definition run {A : Type} (entry : proc A) (evs : list event) (s : system A)
  : system A :=
  fold_left (step entry) evs s.

Definition start {A : Type} (w : world) : system A :=
  {| shared := w; calls := [] |}.

(** The rest of [getAccessToken] after its [await]. *)
Definition exchange_continuation (this : PayPalAuthService)
  : outcome TokenResponse -> proc string :=
  match getAccessToken this with
  | AwaitToken _ k => k
  | _ => fun _ => Ret ""
  end.

(** A successful answer of the token endpoint to call [call], arriving
    when the clock reads [at_time]. *)
Record arrival : Type := {
  call : nat;
  at_time : Z;
  reply : response TokenResponse;
}.

Definition deliver (a : arrival) : event :=
  TokenArrives (call a) (at_time a) (Fulfilled (reply a)).

(** The credential [getAccessToken] stores for an arrival. *)
Definition credential_of (a : arrival) : TokenResponse :=
  with_expiration (data (reply a))
    (at_time a + expires_in (data (reply a)) * 1000).

(** No credential is cached that the fast path would accept at [now]. *)
Definition no_valid_credential (w : world) (now : Z) : Prop :=
  match tokenData w with
  | None => True
  | Some t =>
      match expiration t with
      | None => True
      | Some e => e - tokenExpiryBuffer * 1000 <= now
      end
  end.

End Loop.

(* ------------------------------------------------------------------ *)
(** ** Concrete scenarios *)

Module Scenario.

Import Auth.

Definition service : PayPalAuthService :=
  new {| options_clientId := "client";
         options_clientSecret := "s3cret";
         options_environment := sandbox |}.

Definition issued (token : string) (ttl : Z) : TokenResponse :=
  {| access_token := token;
     token_type := "Bearer";
     app_id := "APP-80W284485P519543T";
     expires_in := ttl;
     nonce := "nonce";
     scope := "openid";
     expiration := None |}.

Definition ok {D : Type} (d : D) : response D :=
  {| status := 200; response_headers := []; data := d |}.

Definition failure (code : Z) (hs : list (string * string)) (d : json)
  : thrown :=
  AxiosError "Request failed" None
    (Some {| status := code; response_headers := hs; data := d |}).

(** A provider that issues token ["A"] for [ttl] seconds and rejects every
    business call with [e]; the clock always reads [now]. *)
Definition provider (ttl : Z) (e : thrown) (now : Z) : network :=
  {| token_endpoint := fun _ _ => Fulfilled (ok (issued "A" ttl));
     api := fun _ _ => Rejected e;
     clock := fun _ => now |}.

(** A provider whose token endpoint is down. *)
Definition outage (e : thrown) : network :=
  {| token_endpoint := fun _ _ => Rejected e;
     api := fun _ _ => Rejected e;
     clock := fun _ => 0 |}.

Definition cold : world := {| tokenData := None; sent := []; logs := [] |}.

(** A world in which token ["A"] was cached at time 0 for nine hours. *)
Definition warm : world :=
  {| tokenData := Some (with_expiration (issued "A" 32400) 32400000);
     sent := [];
     logs := [] |}.

Definition unauthorized : thrown :=
  failure 401 [] (JObj [("error", JStr "invalid_token")]).

Definition rate_limited : thrown :=
  failure 429 [("retry-after", "30")]
    (JObj [("message", JStr "Rate limit reached")]).

Definition invalid_client : thrown :=
  failure 400 []
    (JObj [("error", JStr "invalid_client");
           ("error_description", JStr "Client Authentication failed")]).

Definition card_payload : json :=
  JObj [("security_code", JStr "123");
        ("number", JStr "4111111111111111");
        ("customer", JObj [("id", JStr "abc")])].

End Scenario.

(* ------------------------------------------------------------------ *)
(** ** The other tool handlers *)

Module Handlers.

Import Validation Auth Tools.
Local Open Scope proc_scope.

(** The handlers [createPaymentToken], [createOrder], [createPayment]
    ([tools/payment.tools.ts]), [createProduct], [createPayout]
    ([tools/business.tools.ts]) and [createWebProfile]
    ([tools/user.tools.ts]) have one body, up to the five texts and the
    path: log, get an authenticated client, post the arguments as they
    came, return the response data; on a failure of the post, log and
    raise a new error that quotes the message of the failure. *)
Definition forward (info debug path failed prefix : string)
  (args : list (string * json)) (authService : PayPalAuthService)
  : proc json :=
  logger LInfo info [] ;;
  logger LDebug debug [LValue (sanitizeForLogging (JObj args))] ;;
  client <- getAuthenticatedClient authService ;;
  try_catch
    (response <- client_call client POST path (Some (JObj args)) ;;
     Ret (data response))
    (fun error =>
       logger LError failed [LThrown error] ;;
       Throw (Error (prefix ++ describe error))).

(** Create Payment Token *)
Definition createPaymentToken := 
  forward "Creating payment token" "Payment token args:"
    "/v1/vault/payment-tokens" "Error creating payment token:"
    "Failed to create payment token: ".

(** Create Order *)
Definition createOrder :=
  forward "Creating order" "Order args:"
    "/v2/checkout/orders" "Error creating order:"
    "Failed to create order: ".

(** Create Payment *)
Definition createPayment :=
  forward "Creating payment" "Payment args:"
    "/v1/payments/payment" "Error creating payment:"
    "Failed to create payment: ".

(** Create Product *)
Definition createProduct :=
  forward "Creating product" "Product args:"
    "/v1/catalogs/products" "Error creating product:"
    "Failed to create product: ".

(** Create Payout *)
Definition createPayout :=
  forward "Creating payout" "Payout args:"
    "/v1/payments/payouts" "Error creating payout:"
    "Failed to create payout: ".

(** Create Web Profile *)
Definition createWebProfile :=
  forward "Creating web profile" "Web profile args:"
    "/v1/payment-experience/web-profiles" "Error creating web profile:"
    "Failed to create web profile: ".

(** The six, with the path each posts to and the text each puts before
    the message of a failure. *)
Definition forwarding_handlers
  : list ((list (string * json) -> PayPalAuthService -> proc json)
          * string * string) :=
  [(createPaymentToken, "/v1/vault/payment-tokens",
    "Failed to create payment token: ");
   (createOrder, "/v2/checkout/orders", "Failed to create order: ");
   (createPayment, "/v1/payments/payment", "Failed to create payment: ");
   (createProduct, "/v1/catalogs/products", "Failed to create product: ");
   (createPayout, "/v1/payments/payouts", "Failed to create payout: ");
   (createWebProfile, "/v1/payment-experience/web-profiles",
    "Failed to create web profile: ")].

(** [payment_source ? { payment_source } : {}] *)
Definition capture_body (payment_source : option json) : json :=
  if truthy_opt payment_source
  then JObj (match payment_source with
             | Some v => [("payment_source", v)]
             | None => []
             end)
  else JObj [].

(** Capture Order ([tools/payment.tools.ts]) *)
Definition captureOrder (args : list (string * json))
  (authService : PayPalAuthService) : proc json :=
  let order_id := lookup "order_id" args in
  let payment_source := lookup "payment_source" args in
  logger LInfo ("Capturing order: " ++ template order_id) [] ;;
  logger LDebug "Capture args:" [LValue (sanitizeForLogging (JObj args))] ;;
  client <- getAuthenticatedClient authService ;;
  try_catch
    (response <- client_call client POST
                   ("/v2/checkout/orders/" ++ template order_id ++ "/capture")
                   (Some (capture_body payment_source)) ;;
     Ret (data response))
    (fun error =>
       logger LError ("Error capturing order " ++ template order_id ++ ":")
         [LThrown error] ;;
       Throw (Error ("Failed to capture order: " ++ describe error))).

(** Get Web Profiles ([tools/user.tools.ts]); its arguments are unused. *)
Definition getWebProfiles (_args : list (string * json))
  (authService : PayPalAuthService) : proc json :=
  logger LInfo "Getting web profiles" [] ;;
  client <- getAuthenticatedClient authService ;;
  try_catch
    (response <- client_call client GET
                   "/v1/payment-experience/web-profiles" None ;;
     Ret (data response))
    (fun error =>
       logger LError "Error getting web profiles:" [LThrown error] ;;
       Throw (Error ("Failed to get web profiles: " ++ describe error))).

(** An object literal as it goes on the wire: [JSON.stringify] leaves out
    the properties whose value is [undefined]. *)
Fixpoint literal (props : list (string * option json))
  : list (string * json) :=
  match props with
  | [] => []
  | (k, Some v) :: rest => (k, v) :: literal rest
  | (_, None) :: rest => literal rest
  end.

(** [item => ({ name: item.name, ... })]; reading a property of [null]
    throws. *)
Definition invoice_item (item : json) : option json :=
  match item with
  | JNull => None
  | _ =>
      Some (JObj (literal [("name", get_prop item "name");
                           ("quantity", get_prop item "quantity");
                           ("unit_amount", get_prop item "unit_amount");
                           ("description", get_prop item "description");
                           ("tax", get_prop item "tax")]))
  end.

(** [items.map(f)], where [f] may throw. *)
Fixpoint map_items (items : list json) : option (list json) :=
  match items with
  | [] => Some []
  | item :: rest =>
      match invoice_item item with
      | None => None
      | Some x =>
          match map_items rest with
          | None => None
          | Some xs => Some (x :: xs)
          end
      end
  end.

(** The [invoiceData] literal; [None] when building it throws a
    [TypeError]: [args.items] is not an array ([undefined], [null] or a
    value without a [map] method), or one of the items is [null]. *)
Definition invoiceData (args : list (string * json)) : option json :=
  match lookup "items" args with
  | Some (JArr items) =>
      match map_items items with
      | Some mapped =>
          Some (JObj
            [("detail",
              JObj (literal
                [("invoice_number", lookup "invoice_number" args);
                 ("reference", lookup "reference" args);
                 ("currency_code", lookup "currency_code" args);
                 ("note", lookup "note" args);
                 ("terms_and_conditions",
                  lookup "terms_and_conditions" args);
                 ("memo", lookup "memo" args);
                 ("payment_term", lookup "payment_term" args)]));
             ("invoicer",
              JObj [("name", JObj [("given_name", JStr "Business");
                                   ("surname", JStr "Owner")])]);
             ("primary_recipients",
              JArr [JObj [("billing_info",
                           JObj (literal
                             [("email_address",
                               lookup "recipient_email" args)]))]]);
             ("items", JArr mapped)])
      | None => None
      end
  | _ => None
  end.

(** Create Invoice ([tools/business.tools.ts]).  [type_error] is the
    [TypeError] the engine throws, whose text is the engine's own. *)
Definition createInvoice (type_error : thrown)
  (args : list (string * json)) (authService : PayPalAuthService)
  : proc json :=
  logger LInfo "Creating invoice" [] ;;
  logger LDebug "Invoice args:" [LValue (sanitizeForLogging (JObj args))] ;;
  client <- getAuthenticatedClient authService ;;
  match invoiceData args with
  | None => Throw type_error
  | Some body =>
      try_catch
        (response <- client_call client POST "/v2/invoicing/invoices"
                       (Some body) ;;
         Ret (data response))
        (fun error =>
           logger LError "Error creating invoice:" [LThrown error] ;;
           Throw (Error ("Failed to create invoice: " ++ describe error)))
  end.

(** Every handler that works through an authenticated client. *)
Definition authenticated_handlers (type_error : thrown)
  : list (list (string * json) -> PayPalAuthService -> proc json) :=
  [createPaymentToken; createOrder; captureOrder; createPayment;
   createSubscription; createProduct; createInvoice type_error;
   createPayout; createWebProfile; getWebProfiles].

(** The properties an [invoice_item] can have. *)
Definition invoice_item_keys : list string :=
  ["name"; "quantity"; "unit_amount"; "description"; "tax"].

End Handlers.

(* ------------------------------------------------------------------ *)
(** ** The patterns of the validation schemas *)

Module Schemas.

(** The fragment of regular expressions that the schemas use.  All their
    patterns are anchored at both ends ([^...$], no flags), so that
    [re.test(s)] asks whether the whole of [s] matches.  [Range lo hi] is a
    character class [[lo-hi]]; [Rep r m (Some n)] is [r{m,n}] and
    [Rep r m None] is [r{m,}]. *)
Inductive regex : Type :=
| Empty
| Eps
| Chr (c : ascii)
| Range (lo hi : ascii)
| Cat (r1 r2 : regex)
| Alt (r1 r2 : regex)
| Rep (r : regex) (min : nat) (max : option nat).

(** [\d] *)
Definition Digit : regex := Range "0" "9".
(** [r+], [r*], [r?] *)
Definition plus (r : regex) : regex := Rep r 1 None.
Definition star (r : regex) : regex := Rep r 0 None.
Definition opt (r : regex) : regex := Rep r 0 (Some 1%nat).

Definition in_range (lo hi c : ascii) : bool :=
  (Nat.leb (nat_of_ascii lo) (nat_of_ascii c)
   && Nat.leb (nat_of_ascii c) (nat_of_ascii hi))%bool.

Definition is_digit (c : ascii) : bool := in_range "0" "9" c.

Fixpoint all_digits (s : string) : bool :=
  match s with
  | EmptyString => true
  | String c r => (is_digit c && all_digits r)%bool
  end.

(** Does [r] match the empty text? *)
Fixpoint nullable (r : regex) : bool :=
  match r with
  | Empty => false
  | Eps => true
  | Chr _ => false
  | Range _ _ => false
  | Cat r1 r2 => (nullable r1 && nullable r2)%bool
  | Alt r1 r2 => (nullable r1 || nullable r2)%bool
  | Rep r m _ => (Nat.eqb m 0 || nullable r)%bool
  end.

(** What is left of [r] to match once [c] has been read. *)
Fixpoint deriv (r : regex) (c : ascii) : regex :=
  match r with
  | Empty => Empty
  | Eps => Empty
  | Chr a => if Ascii.eqb a c then Eps else Empty
  | Range lo hi => if in_range lo hi c then Eps else Empty
  | Cat r1 r2 =>
      if nullable r1
      then Alt (Cat (deriv r1 c) r2) (deriv r2 c)
      else Cat (deriv r1 c) r2
  | Alt r1 r2 => Alt (deriv r1 c) (deriv r2 c)
  | Rep r1 m mx =>
      match mx with
      | Some O => Empty
      | _ => Cat (deriv r1 c) (Rep r1 (Nat.pred m) (option_map Nat.pred mx))
      end
  end.

(** [re.test(s)] for an anchored pattern. *)
Fixpoint test (r : regex) (s : string) : bool :=
  match s with
  | EmptyString => nullable r
  | String c rest => test (deriv r c) rest
  end.

(** [/^\d{13,19}$/]: the card number of [cardSchema] and of
    [createPaymentSchema]. *)
Definition card_number : regex := Rep Digit 13 (Some 19%nat).

(** [/^\d{3,4}$/]: [security_code] and [cvv2]. *)
Definition security_code : regex := Rep Digit 3 (Some 4%nat).

(** [/^(0[1-9]|1[0-2])\/\d{2}$/]: the card expiry. *)
Definition expiry : regex :=
  Cat (Alt (Cat (Chr "0") (Range "1" "9")) (Cat (Chr "1") (Range "0" "2")))
      (Cat (Chr "/") (Rep Digit 2 (Some 2%nat))).

(** [/^\d+\.?\d*$/]: the [value] of an amount, the [total] of a
    transaction. *)
Definition amount_value : regex :=
  Cat (plus Digit) (Cat (opt (Chr ".")) (star Digit)).

(** [/^\d+(\.\d+)?$/]: the [percent] of a tax. *)
Definition tax_percent : regex :=
  Cat (plus Digit) (opt (Cat (Chr ".") (plus Digit))).

(** [/^\d+$/]: the [quantity] of an item. *)
Definition quantity : regex := plus Digit.

(** [/^\d{4}-\d{2}-\d{2}$/]: the [due_date] of a payment term. *)
Definition due_date : regex :=
  Cat (Rep Digit 4 (Some 4%nat))
      (Cat (Chr "-")
           (Cat (Rep Digit 2 (Some 2%nat))
                (Cat (Chr "-") (Rep Digit 2 (Some 2%nat))))).

(** The number a decimal digit stands for. *)
Definition digit_value (c : ascii) : nat := (nat_of_ascii c - 48)%nat.

End Schemas.

(* ------------------------------------------------------------------ *)
(** ** Further concrete cases *)

Module Cases.

Import Auth.

(** A provider that issues token ["B"] for nine hours and answers every
    business call with [d]; the clock always reads [now]. *)
Definition answering (d : json) (now : Z) : network :=
  {| token_endpoint :=
       fun _ _ => Fulfilled (Scenario.ok (Scenario.issued "B" 32400));
     api := fun _ _ => Fulfilled (Scenario.ok d);
     clock := fun _ => now |}.

(** A provider that issues token ["B"] and rejects every business call
    with [e]. *)
Definition rejecting (e : thrown) (now : Z) : network :=
  {| token_endpoint :=
       fun _ _ => Fulfilled (Scenario.ok (Scenario.issued "B" 32400));
     api := fun _ _ => Rejected e;
     clock := fun _ => now |}.

(** No answer from the provider at all. *)
Definition timeout : thrown :=
  AxiosError "timeout of 10000ms exceeded" None None.

(** A 401 answer whose body also carries a description. *)
Definition expired_token : response json :=
  {| status := 401;
     response_headers := [];
     data := JObj [("error", JStr "invalid_token");
                   ("error_description",
                    JStr "Access Token not found in cache")] |}.

Definition order_args : list (string * json) :=
  [("intent", JStr "CAPTURE");
   ("purchase_units",
    JArr [JObj [("amount", JObj [("currency_code", JStr "USD");
                                 ("value", JStr "10.00")])]])].

Definition capture_args : list (string * json) :=
  [("order_id", JStr "5O190127TN364715T");
   ("payment_source",
    JObj [("token", JObj [("id", JStr "tok-1");
                          ("type", JStr "BILLING_AGREEMENT")])]);
   ("note", JStr "not part of the capture")].

Definition invoice_args : list (string * json) :=
  [("invoice_number", JStr "INV-1");
   ("reference", JStr "deal-7");
   ("currency_code", JStr "USD");
   ("recipient_email", JStr "buyer@example.com");
   ("items",
    JArr [JObj [("name", JStr "Widget");
                ("quantity", JStr "2");
                ("unit_amount", JObj [("currency_code", JStr "USD");
                                      ("value", JStr "5.00")]);
                ("sku", JStr "W-1")]])].

Definition type_error : thrown :=
  Error "Cannot read properties of undefined (reading 'map')".

End Cases.

(* ------------------------------------------------------------------ *)
(** ** What reaches the logger *)

Module Logged.

Import Validation Auth.






End Logged.

(* ------------------------------------------------------------------ *)
(** ** Facts about the interpreter *)

Module AsyncFacts.

Lemma exec_bind {A B : Type} (net : network) (p : proc A) (f : A -> proc B) :
  forall w,
    exec net (bind p f) w =
    match exec net p w with
    | (w', Resolved a) => exec net (f a) w'
    | (w', Raised e) => (w', Raised e)
    end.
Proof.
  induction p; intro w; simpl; auto.
Qed.

Lemma exec_try_catch {A : Type} (net : network) (p : proc A)
  (h : thrown -> proc A) :
  forall w,
    exec net (try_catch p h) w =
    match exec net p w with
    | (w', Resolved a) => (w', Resolved a)
    | (w', Raised e) => exec net (h e) w'
    end.
Proof.
  induction p; intro w; simpl; auto.
Qed.

(** What is in the log has no influence on a call: it sends the same
    requests, leaves the same credential and ends the same way. *)
Lemma exec_ignores_logs {A : Type} (net : network) (p : proc A) :
  forall w1 w2,
    same_state w1 w2 ->
    same_state (fst (exec net p w1)) (fst (exec net p w2))
    /\ snd (exec net p w1) = snd (exec net p w2).
Proof.
  induction p as [a | e | k IH | t k IH | k IH | l k IH | r k IH | r k IH];
    intros w1 w2 [Ht Hs]; cbn [exec].
  - split; [split; assumption | reflexivity].
  - split; [split; assumption | reflexivity].
  - rewrite Ht. apply IH. split; assumption.
  - apply IH. split; [reflexivity | exact Hs].
  - rewrite Hs. apply IH. split; assumption.
  - apply IH. split; assumption.
  - rewrite Hs. apply IH. split; [exact Ht | cbn; rewrite Hs; reflexivity].
  - rewrite Hs. apply IH. split; [exact Ht | cbn; rewrite Hs; reflexivity].
Qed.

(** A call only ever appends to the log. *)
Lemma exec_appends_logs {A : Type} (net : network) (p : proc A) :
  forall w, exists l, logs (fst (exec net p w)) = (logs w ++ l)%list.
Proof.
  induction p as [a | e | k IH | t k IH | k IH | l k IH | r k IH | r k IH];
    intro w; cbn [exec].
  - exists []. cbn. rewrite app_nil_r. reflexivity.
  - exists []. cbn. rewrite app_nil_r. reflexivity.
  - apply IH.
  - destruct (IH (set_tokenData t w)) as [l' H]. exists l'. exact H.
  - apply IH.
  - destruct (IH (add_log l w)) as [l' H]. exists (l :: l').
    rewrite H. cbn. rewrite <- app_assoc. reflexivity.
  - destruct (IH (token_endpoint net (List.length (sent w)) r) (send r w))
      as [l' H]. exists l'. exact H.
  - destruct (IH (api net (List.length (sent w)) r) (send r w))
      as [l' H]. exists l'. exact H.
Qed.

End AsyncFacts.

(* ------------------------------------------------------------------ *)
(** ** Facts about text *)

Module TextFacts.

Lemma prefix_length (p s : string) :
  prefix p s = true -> (String.length p <= String.length s)%nat.
Proof.
  revert s. induction p as [| c p IH]; intros s H; cbn; [lia|].
  destruct s as [| d s]; cbn in H; [discriminate|].
  destruct (ascii_dec c d); [|discriminate].
  cbn. apply IH in H. lia.
Qed.

(** A text cannot include a longer one. *)
Lemma includes_length (p s : string) :
  Text.includes p s = true -> (String.length p <= String.length s)%nat.
Proof.
  induction s as [| d s IH]; intro H.
  - destruct p; [cbn; lia | discriminate H].
  - cbn [Text.includes] in H.
    destruct (prefix p (String d s)) eqn:E.
    + apply prefix_length in E. exact E.
    + apply IH in H. cbn [String.length]. lia.
Qed.

Lemma longer_is_not_included (p s : string) :
  (String.length s < String.length p)%nat -> Text.includes p s = false.
Proof.
  intro H. destruct (Text.includes p s) eqn:E; [|reflexivity].
  apply includes_length in E. lia.
Qed.

End TextFacts.

(* ------------------------------------------------------------------ *)
(** ** Facts about the logging sanitizer *)

Module SanitizerFacts.

Import Validation Auth AsyncFacts.

(** What the sanitizer leaves under a key. *)
Lemma lookup_sanitized (k : string) (fs : list (string * json)) :
  lookup k (map (fun kv =>
                   (fst kv,
                    if key_matches (fst kv) then MASK
                    else sanitizeForLogging (snd kv))) fs)
  = option_map (fun x => if key_matches k then MASK
                         else sanitizeForLogging x)
               (lookup k fs).
Proof.
  induction fs as [| [k' v] fs IH]; cbn [map lookup fst snd option_map];
    [reflexivity|].
  destruct (String.eqb_spec k k') as [E | _]; [subst k'; reflexivity | exact IH].
Qed.

(** Any field of a sanitized document whose key is secret-like holds the
    mask, at whatever depth it sits. *)
Lemma secret_fields_are_masked (p : list step) :
  forall (v : json) (k : string) (x : json),
    at_path (sanitizeForLogging v) (p ++ [Key k]) = Some x ->
    key_matches k = true ->
    x = MASK.
Proof.
  induction p as [| s p IH]; intros v k x Hat Hk.
  - destruct v; cbn [at_path sanitizeForLogging app] in Hat; try discriminate.
    rewrite lookup_sanitized, Hk in Hat.
    destruct (lookup k fields); cbn [option_map] in Hat; [|discriminate].
    injection Hat as <-. reflexivity.
  - destruct s as [k' | i]; destruct v;
      cbn [at_path sanitizeForLogging app] in Hat; try discriminate.
    + rewrite lookup_sanitized in Hat.
      destruct (lookup k' fields) as [y |]; cbn [option_map] in Hat;
        [|discriminate].
      destruct (key_matches k').
      * unfold MASK in Hat.
        destruct p as [| [k2 | i2] p]; discriminate Hat.
      * eapply IH; eassumption.
    + rewrite nth_error_map in Hat.
      destruct (nth_error items i) as [y |]; cbn [option_map] in Hat;
        [|discriminate].
      eapply IH; eassumption.
Qed.

(** Along a path with no secret-like key the sanitizer changes nothing but
    what lies below. *)
Lemma clear_paths_are_kept (p : list step) :
  forall (v x : json),
    forallb clear_step p = true ->
    at_path v p = Some x ->
    at_path (sanitizeForLogging v) p = Some (sanitizeForLogging x).
Proof.
  induction p as [| s p IH]; intros v x Hclear Hat.
  - cbn in Hat. injection Hat as <-. reflexivity.
  - cbn in Hclear. apply andb_prop in Hclear as [Hs Hp].
    destruct s as [k | i]; destruct v; cbn [at_path] in Hat;
      try discriminate; cbn [at_path sanitizeForLogging].
    + rewrite lookup_sanitized.
      destruct (lookup k fields) as [y |]; [|discriminate].
      cbn [clear_step] in Hs. apply negb_true_iff in Hs.
      cbn [option_map]. rewrite Hs.
      apply IH; assumption.
    + rewrite nth_error_map.
      destruct (nth_error items i) as [y |]; [|discriminate].
      cbn [option_map]. apply IH; assumption.
Qed.

(** What the sanitizer does: the card payload comes out with
    [security_code] and [number] replaced by the mask and [customer.id] as
    it was.  In general the key test does not see letter case; in a sanitized document a field
    with a secret-like key holds the mask at any depth; and what is reached
    through keys that are not secret-like is kept, sanitized in turn below
    (a string, number, boolean or null is kept as it is).  The entry
    [handleRequestError] writes for a provider answer carries the answer's
    data sanitized. *)
Theorem sanitizer_masks_secret_fields :
  sanitizeForLogging Scenario.card_payload
  = JObj [("security_code", MASK);
          ("number", MASK);
          ("customer", JObj [("id", JStr "abc")])]
  /\ (forall k k', Text.toLowerCase k = Text.toLowerCase k' ->
                   key_matches k = key_matches k')
  /\ (forall v p k x,
        at_path (sanitizeForLogging v) (p ++ [Key k]) = Some x ->
        key_matches k = true ->
        x = MASK)
  /\ (forall v p x,
        forallb clear_step p = true ->
        at_path v p = Some x ->
        at_path (sanitizeForLogging v) p = Some (sanitizeForLogging x))
  /\ (forall (A : Type) net w msg config (r : response json),
        nth_error
          (logs (fst (exec net (@handleRequestError A
                                  (AxiosError msg config (Some r))) w)))
          (List.length (logs w))
        = Some {| log_level := LError;
                  log_text := "PayPal API error:";
                  log_args :=
                    [LApiError (Some (status r))
                       (Some (sanitizeForLogging (data r)))
                       (option_map url config)
                       (option_map meth config)] |}).
Proof.
  split; [reflexivity|]. split; [|split; [|split]].
  - intros k k' E. unfold key_matches. rewrite E. reflexivity.
  - intros v p. apply secret_fields_are_masked.
  - intros v p. apply clear_paths_are_kept.
  - intros A net w msg config r. unfold handleRequestError.
    cbn [logger bind exec option_map].
    match goal with
    | |- context [exec net ?p (add_log ?l w)] =>
        destruct (exec_appends_logs net p (add_log l w)) as [l' Hl]
    end.
    rewrite Hl. cbn [add_log logs]. rewrite <- app_assoc.
    rewrite nth_error_app2 by lia. rewrite Nat.sub_diag. reflexivity.
Qed.

End SanitizerFacts.

Module AuthFacts.
Import Validation Auth AsyncFacts.

(** [handleRequestError] never answers: it always rejects, sends nothing,
    and leaves the cached credential alone or clears it. *)
Lemma handleRequestError_raises {A : Type} (net : network) (error : thrown)
  (w : world) :
  exists w' e,
    exec net (@handleRequestError A error) w = (w', Raised e)
    /\ sent w' = sent w
    /\ (tokenData w' = tokenData w \/ tokenData w' = None).
Proof.
  destruct error as [msg cfg resp | msg]; simpl.
  - destruct (match option_map status resp with Some s => s =? 401 | None => false end).
    + simpl. eauto 6.
    + destruct (truthy_opt (option_map data resp) && _)%bool.
      * simpl. eauto 6.
      * destruct (truthy_opt (option_map data resp) && _)%bool; simpl; eauto 6.
  - eauto 6.
Qed.

(** A successful exchange stores the answer with its expiry instant and
    returns its token. *)
Lemma getAccessToken_fulfilled (this : PayPalAuthService) (net : network)
  (w : world) (r : response TokenResponse) :
  token_endpoint net (List.length (sent w)) (token_request this) = Fulfilled r ->
  exec net (getAccessToken this) w =
  (add_log {| log_level := LDebug;
              log_text := "Obtained new PayPal access token";
              log_args := [] |}
     (set_tokenData
        (Some (with_expiration (data r)
                 (clock net (S (List.length (sent w)))
                  + expires_in (data r) * 1000)))
        (send (token_request this) w)),
   Resolved (access_token (data r))).
Proof.
  intro H. unfold getAccessToken. simpl. rewrite H. simpl.
  rewrite length_app. simpl. rewrite Nat.add_1_r. reflexivity.
Qed.

(** A failed exchange raises the one fixed error, having sent the one
    request. *)
Lemma getAccessToken_rejected (this : PayPalAuthService) (net : network)
  (w : world) (x : thrown) :
  token_endpoint net (List.length (sent w)) (token_request this) = Rejected x ->
  exists w',
    exec net (getAccessToken this) w =
    (w', Raised (Error "Failed to authenticate with PayPal API"))
    /\ sent w' = (sent w ++ [token_request this])%list.
Proof.
  intro H. unfold getAccessToken.
  rewrite exec_try_catch. simpl. rewrite H.
  rewrite exec_bind.
  destruct (handleRequestError_raises (A := response TokenResponse) net x
              (send (token_request this) w)) as (w' & e & He & Hs & _).
  rewrite He. simpl. eexists. split; [reflexivity|]. simpl. exact Hs.
Qed.

(** Whatever the provider answers, [getAccessToken] puts exactly one
    request on the wire: the credential exchange. *)
Lemma getAccessToken_sends_exchange (this : PayPalAuthService) (net : network)
  (w : world) :
  sent (fst (exec net (getAccessToken this) w)) = (sent w ++ [token_request this])%list.
Proof.
  destruct (token_endpoint net (List.length (sent w)) (token_request this))
    as [r | x] eqn:H.
  - rewrite (getAccessToken_fulfilled _ _ _ _ H). reflexivity.
  - destruct (getAccessToken_rejected _ _ _ _ H) as (w' & He & Hs).
    rewrite He. exact Hs.
Qed.

(** Without a credential the fast path accepts, [ensureAccessToken] is
    [getAccessToken]. *)
Lemma ensureAccessToken_renews (this : PayPalAuthService) (net : network)
  (w : world) :
  Loop.no_valid_credential w (clock net (List.length (sent w))) ->
  exec net (ensureAccessToken this) w = exec net (getAccessToken this) w.
Proof.
  unfold Loop.no_valid_credential, ensureAccessToken. cbn [exec bind].
  destruct (tokenData w) as [t|]; [|reflexivity].
  destruct (expiration t) as [e|]; [|reflexivity].
  intro H. destruct (e =? 0); [reflexivity|]. cbn [exec bind].
  replace (clock net (List.length (sent w)) <? e - tokenExpiryBuffer * 1000)
    with false; [reflexivity|].
  symmetry. apply Z.ltb_ge. exact H.
Qed.

(** C2 (fast-path no-op) -- when a credential is cached and the clock reads
    strictly less than its expiry instant minus the 300 second buffer,
    [ensureAccessToken] returns the cached token and leaves the world as it
    found it: no request is sent, nothing is logged, [tokenData] is
    untouched.  The clock counts milliseconds since the epoch. *)
Theorem ensureAccessToken_fast_path (this : PayPalAuthService)
  (net : network) (w : world) (t : TokenResponse) (e : Z) :
  tokenData w = Some t ->
  expiration t = Some e ->
  0 <= clock net (List.length (sent w)) ->
  clock net (List.length (sent w)) < e - 300 * 1000 ->
  exec net (ensureAccessToken this) w = (w, Resolved (access_token t)).
Proof.
  intros Ht He Hpos Hlt. unfold ensureAccessToken. cbn [exec bind].
  rewrite Ht, He.
  destruct (Z.eqb_spec e 0) as [E0 | _]; [lia|]. cbn [exec bind].
  unfold tokenExpiryBuffer.
  destruct (Z.ltb_spec (clock net (List.length (sent w))) (e - 300 * 1000));
    [reflexivity | lia].
Qed.

Lemma ensureAccessToken_fast_path_witness :
  exec (Scenario.provider 32400 Scenario.unauthorized 1000)
       (ensureAccessToken Scenario.service) Scenario.warm
  = (Scenario.warm, Resolved "A").
Proof.
  apply (ensureAccessToken_fast_path Scenario.service
           (Scenario.provider 32400 Scenario.unauthorized 1000) Scenario.warm
           (with_expiration (Scenario.issued "A" 32400) 32400000) 32400000).
  - reflexivity.
  - reflexivity.
  - simpl. lia.
  - simpl. lia.
Defined.

(** C3 (invalidation, then renewal) -- a call through an authenticated
    client that the provider rejects with status 401 leaves [tokenData]
    absent, whatever credential was cached and however far its expiry; the
    next [ensureAccessToken] then sends a credential exchange. *)
Theorem unauthorized_call_discards_credential (this : PayPalAuthService)
  (net : network) (w : world) (c : client) (m : method) (path : string)
  (payload : option json) (msg : string) (config : option request)
  (r : response json) :
  api net (List.length (sent w)) (client_request c m path payload)
  = Rejected (AxiosError msg config (Some r)) ->
  status r = 401 ->
  let w1 := fst (exec net (client_call c m path payload) w) in
  tokenData w1 = None
  /\ forall net',
       sent (fst (exec net' (ensureAccessToken this) w1))
       = (sent w1 ++ [token_request this])%list.
Proof.
  intros Hapi H401 w1.
  assert (Hnone : tokenData w1 = None).
  { unfold w1, client_call. simpl. rewrite Hapi. simpl.
    rewrite H401. reflexivity. }
  split; [exact Hnone|].
  intro net'. rewrite ensureAccessToken_renews.
  - apply getAccessToken_sends_exchange.
  - unfold Loop.no_valid_credential. rewrite Hnone. exact I.
Qed.

Lemma unauthorized_call_discards_credential_witness :
  let c := {| client_baseURL := baseUrl Scenario.service;
              client_headers := [("Authorization", "Bearer A")] |} in
  let net := Scenario.provider 32400 Scenario.unauthorized 1000 in
  let w1 := fst (exec net (client_call c GET "/v1/payment-experience/web-profiles" None)
                   Scenario.warm) in
  tokenData w1 = None
  /\ forall net',
       sent (fst (exec net' (ensureAccessToken Scenario.service) w1))
       = (sent w1 ++ [token_request Scenario.service])%list.
Proof.
  intros c net.
  apply (unauthorized_call_discards_credential Scenario.service net
           Scenario.warm c GET "/v1/payment-experience/web-profiles" None
           "Request failed" None
           {| status := 401; response_headers := [];
              data := JObj [("error", JStr "invalid_token")] |}).
  - reflexivity.
  - reflexivity.
Defined.

(** C4 (expiry buffer enforcement) -- the buffer is 300 seconds, and a
    credential issued with [expires_in = 300] is stored with an expiry
    instant 300000 ms after the clock reading at issuance, so that from that
    very instant on (where the clock equals expiry minus buffer) the fast
    path refuses it and [ensureAccessToken] sends a fresh exchange. *)
Theorem ttl_equal_to_buffer_expires_on_issue (this : PayPalAuthService)
  (net : network) (w : world) (r : response TokenResponse) :
  token_endpoint net (List.length (sent w)) (token_request this) = Fulfilled r ->
  expires_in (data r) = 300 ->
  let issued_at := clock net (S (List.length (sent w))) in
  let w1 := fst (exec net (getAccessToken this) w) in
  tokenExpiryBuffer = 300
  /\ tokenData w1 = Some (with_expiration (data r) (issued_at + 300 * 1000))
  /\ forall net',
       issued_at <= clock net' (List.length (sent w1)) ->
       sent (fst (exec net' (ensureAccessToken this) w1))
       = (sent w1 ++ [token_request this])%list.
Proof.
  intros Hr Httl issued_at w1.
  assert (Htd : tokenData w1
                = Some (with_expiration (data r) (issued_at + 300 * 1000))).
  { unfold w1. rewrite (getAccessToken_fulfilled _ _ _ _ Hr). simpl.
    rewrite Httl. reflexivity. }
  split; [reflexivity|]. split; [exact Htd|].
  intros net' Hnow. rewrite ensureAccessToken_renews.
  - apply getAccessToken_sends_exchange.
  - unfold Loop.no_valid_credential. rewrite Htd. simpl.
    unfold tokenExpiryBuffer. lia.
Qed.

Lemma ttl_equal_to_buffer_expires_on_issue_witness :
  let net := Scenario.provider 300 Scenario.unauthorized 1000 in
  let w1 := fst (exec net (getAccessToken Scenario.service) Scenario.cold) in
  tokenExpiryBuffer = 300
  /\ tokenData w1
     = Some (with_expiration (data (Scenario.ok (Scenario.issued "A" 300)))
               (1000 + 300 * 1000))
  /\ forall net',
       1000 <= clock net' (List.length (sent w1)) ->
       sent (fst (exec net' (ensureAccessToken Scenario.service) w1))
       = (sent w1 ++ [token_request Scenario.service])%list.
Proof.
  intros net.
  apply (ttl_equal_to_buffer_expires_on_issue Scenario.service net
           Scenario.cold (Scenario.ok (Scenario.issued "A" 300))).
  - reflexivity.
  - reflexivity.
Defined.

(** C5 (no secret in the error) -- whenever the credential exchange fails,
    [getAccessToken] raises [Error "Failed to authenticate with PayPal API"]
    and [verifyCredentials] raises [Error "Invalid PayPal credentials.
    Please check your client ID and secret."]: two services that differ in
    their client secret (or in anything else), facing any two failures,
    raise the same error, with the same message.  A secret longer than
    these fixed texts, as the 80 characters PayPal issues, is therefore not
    included in them. *)
Theorem exchange_failure_is_secret_independent
  (this1 this2 : PayPalAuthService) (net1 net2 : network) (w1 w2 : world)
  (x1 x2 : thrown) :
  token_endpoint net1 (List.length (sent w1)) (token_request this1)
  = Rejected x1 ->
  token_endpoint net2 (List.length (sent w2)) (token_request this2)
  = Rejected x2 ->
  (snd (exec net1 (getAccessToken this1) w1)
   = Raised (Error "Failed to authenticate with PayPal API")
   /\ snd (exec net2 (getAccessToken this2) w2)
      = snd (exec net1 (getAccessToken this1) w1))
  /\ (snd (exec net1 (verifyCredentials this1) w1)
      = Raised (Error
          "Invalid PayPal credentials. Please check your client ID and secret.")
      /\ snd (exec net2 (verifyCredentials this2) w2)
         = snd (exec net1 (verifyCredentials this1) w1))
  /\ ((67 < String.length (clientSecret this1))%nat ->
      forall m,
        raised_message (snd (exec net1 (getAccessToken this1) w1)) = Some m
        \/ raised_message (snd (exec net1 (verifyCredentials this1) w1))
           = Some m ->
        Text.includes (clientSecret this1) m = false).
Proof.
  intros H1 H2.
  destruct (getAccessToken_rejected _ _ _ _ H1) as (w1' & E1 & _).
  destruct (getAccessToken_rejected _ _ _ _ H2) as (w2' & E2 & _).
  assert (V : forall this net w w',
            exec net (getAccessToken this) w
            = (w', Raised (Error "Failed to authenticate with PayPal API")) ->
            snd (exec net (verifyCredentials this) w)
            = Raised (Error
                "Invalid PayPal credentials. Please check your client ID and secret.")).
  { intros this net w w' E. unfold verifyCredentials.
    rewrite exec_try_catch, exec_bind, E. reflexivity. }
  split; [rewrite E1, E2; split; reflexivity|].
  split; [rewrite (V _ _ _ _ E1), (V _ _ _ _ E2); split; reflexivity|].
  intros Hlen m Hm. rewrite (V _ _ _ _ E1), E1 in Hm.
  apply TextFacts.longer_is_not_included.
  destruct Hm as [Hm | Hm]; cbn in Hm; injection Hm as <-; cbn; lia.
Qed.

Lemma exchange_failure_is_secret_independent_witness :
  let other := new {| options_clientId := "client";
                      options_clientSecret := "another secret";
                      options_environment := live |} in
  let net1 := Scenario.outage Scenario.invalid_client in
  let net2 := Scenario.outage Scenario.unauthorized in
  (snd (exec net1 (getAccessToken Scenario.service) Scenario.cold)
   = Raised (Error "Failed to authenticate with PayPal API")
   /\ snd (exec net2 (getAccessToken other) Scenario.warm)
      = snd (exec net1 (getAccessToken Scenario.service) Scenario.cold))
  /\ (snd (exec net1 (verifyCredentials Scenario.service) Scenario.cold)
      = Raised (Error
          "Invalid PayPal credentials. Please check your client ID and secret.")
      /\ snd (exec net2 (verifyCredentials other) Scenario.warm)
         = snd (exec net1 (verifyCredentials Scenario.service) Scenario.cold))
  /\ ((67 < String.length (clientSecret Scenario.service))%nat ->
      forall m,
        raised_message
          (snd (exec net1 (getAccessToken Scenario.service) Scenario.cold))
        = Some m
        \/ raised_message
             (snd (exec net1 (verifyCredentials Scenario.service)
                     Scenario.cold))
           = Some m ->
        Text.includes (clientSecret Scenario.service) m = false).
Proof.
  intros other net1 net2.
  apply (exchange_failure_is_secret_independent Scenario.service other
           net1 net2 Scenario.cold Scenario.warm
           Scenario.invalid_client Scenario.unauthorized).
  - reflexivity.
  - reflexivity.
Defined.

(** *** The error normalizer *)

(** C6, as stated, fails -- a 429 answer carrying [retry-after: 30] and a
    [message] is turned into [Error "PayPal API error: Rate limit reached"]:
    the hint is nowhere in the message, and a 500 answer with the same body
    yields the very same error, so nothing marks the failure as a rate
    limit. *)
Lemma rate_limit_hint_is_dropped :
  let net := Scenario.provider 300 Scenario.unauthorized 0 in
  let body := JObj [("message", JStr "Rate limit reached")] in
  Scenario.rate_limited = Scenario.failure 429 [("retry-after", "30")] body
  /\ snd (exec net (@handleRequestError unit Scenario.rate_limited)
            Scenario.cold)
     = Raised (Error "PayPal API error: Rate limit reached")
  /\ Text.includes "30" "PayPal API error: Rate limit reached" = false
  /\ snd (exec net (@handleRequestError unit (Scenario.failure 500 [] body))
            Scenario.cold)
     = Raised (Error "PayPal API error: Rate limit reached").
Proof.
  repeat split; reflexivity.
Qed.

(** C6, amended -- status 429 gets no treatment of its own.  The handler
    rejects, keeps the cached credential, and the message of the error it
    raises is the one it raises for any other status but 401 with the same
    body, whatever the response headers (a retry-after hint included) and
    the request were. *)
Theorem rate_limit_is_handled_like_any_status (A : Type)
  (net net' : network) (w w' : world) (msg : string)
  (config config' : option request) (hs hs' : list (string * string))
  (d : json) (s : Z) :
  s <> 401 ->
  let limited :=
    exec net (@handleRequestError A
      (AxiosError msg config
         (Some {| status := 429; response_headers := hs; data := d |}))) w in
  let other :=
    exec net' (@handleRequestError A
      (AxiosError msg config'
         (Some {| status := s; response_headers := hs'; data := d |}))) w' in
  raised_message (snd limited) = raised_message (snd other)
  /\ raised_message (snd limited) <> None
  /\ tokenData (fst limited) = tokenData w.
Proof.
  intros Hs limited other. unfold limited, other, handleRequestError.
  cbn [option_map status data logger bind exec].
  destruct (Z.eqb_spec s 401) as [E | _]; [contradiction|].
  change (429 =? 401) with false. cbv iota.
  destruct (truthy_opt (Some d) && truthy_opt (get_prop d "error_description"))%bool.
  - cbn. repeat split; discriminate.
  - destruct (truthy_opt (Some d) && truthy_opt (get_prop d "message"))%bool;
      cbn; repeat split; discriminate.
Qed.

Lemma rate_limit_is_handled_like_any_status_witness :
  let net := Scenario.provider 300 Scenario.unauthorized 0 in
  let body := JObj [("message", JStr "Rate limit reached")] in
  let limited :=
    exec net (@handleRequestError unit
      (AxiosError "Request failed" None
         (Some {| status := 429;
                  response_headers := [("retry-after", "30")];
                  data := body |}))) Scenario.cold in
  let other :=
    exec net (@handleRequestError unit
      (AxiosError "Request failed" None
         (Some {| status := 500; response_headers := [];
                  data := body |}))) Scenario.warm in
  raised_message (snd limited) = raised_message (snd other)
  /\ raised_message (snd limited) <> None
  /\ tokenData (fst limited) = tokenData Scenario.cold.
Proof.
  intros net body.
  apply (rate_limit_is_handled_like_any_status unit net net Scenario.cold
           Scenario.warm "Request failed" None None
           [("retry-after", "30")] [] body 500).
  lia.
Defined.

(** C7, as stated, fails -- a 400 answer whose body exposes
    [error_description: "Client Authentication failed"] is turned into an
    error whose message is not that value: it carries a prefix. *)
Lemma provider_message_is_prefixed :
  let net := Scenario.provider 300 Scenario.unauthorized 0 in
  Scenario.invalid_client
  = Scenario.failure 400 []
      (JObj [("error", JStr "invalid_client");
             ("error_description", JStr "Client Authentication failed")])
  /\ exists e,
       snd (exec net (@handleRequestError unit Scenario.invalid_client)
              Scenario.cold) = Raised e
       /\ message_of e = "PayPal API error: Client Authentication failed"
       /\ message_of e <> "Client Authentication failed".
Proof.
  split; [reflexivity|].
  exists (Error "PayPal API error: Client Authentication failed").
  repeat split. discriminate.
Qed.

(** C7, amended -- for a failure answer with any status other than 401
    whose body exposes a truthy [error_description], or failing that a
    truthy [message], the handler raises a plain [Error] whose message is
    ["PayPal API error: "] followed by that field's value; the cached
    credential is kept. *)
Theorem provider_description_is_surfaced_with_prefix (A : Type)
  (net : network) (w : world) (msg : string) (config : option request)
  (r : response json) (v : json) :
  status r <> 401 ->
  truthy v = true ->
  get_prop (data r) "error_description" = Some v
  \/ (truthy_opt (get_prop (data r) "error_description") = false
      /\ get_prop (data r) "message" = Some v) ->
  let out := exec net (@handleRequestError A (AxiosError msg config (Some r))) w in
  snd out = Raised (Error ("PayPal API error: " ++ to_string v))
  /\ tokenData (fst out) = tokenData w.
Proof.
  intros Hs Hv Hfield out. unfold out, handleRequestError.
  cbn [option_map logger bind exec].
  destruct (Z.eqb_spec (status r) 401) as [E | _]; [contradiction|].
  assert (Hd : truthy_opt (Some (data r)) = true).
  { destruct (data r); cbn in Hfield;
      try (destruct Hfield as [Hf | [_ Hf]]; discriminate Hf).
    reflexivity. }
  rewrite Hd. cbn [andb].
  destruct Hfield as [Hdesc | [Hno Hmsg]].
  - rewrite Hdesc. cbn [truthy_opt template]. rewrite Hv. cbn. split; reflexivity.
  - rewrite Hno, Hmsg. cbn [truthy_opt template]. rewrite Hv. cbn.
    split; reflexivity.
Qed.

Lemma provider_description_is_surfaced_with_prefix_witness :
  let net := Scenario.provider 300 Scenario.unauthorized 0 in
  let out := exec net (@handleRequestError unit Scenario.invalid_client)
               Scenario.warm in
  snd out = Raised (Error ("PayPal API error: "
                           ++ to_string (JStr "Client Authentication failed")))
  /\ tokenData (fst out) = tokenData Scenario.warm.
Proof.
  intro net.
  apply (provider_description_is_surfaced_with_prefix unit net Scenario.warm
           "Request failed" None
           {| status := 400; response_headers := [];
              data := JObj [("error", JStr "invalid_client");
                            ("error_description",
                             JStr "Client Authentication failed")] |}
           (JStr "Client Authentication failed")).
  - simpl. lia.
  - reflexivity.
  - left. reflexivity.
Defined.
End AuthFacts.

(* ------------------------------------------------------------------ *)
(** ** Facts about the tool handlers *)

Module ToolFacts.

Import Validation Auth Tools AsyncFacts AuthFacts.

Lemma lookup_omit_same (k : string) (fs : list (string * json)) :
  lookup k (omit k fs) = None.
Proof.
  induction fs as [| [k' v] fs IH]; cbn; [reflexivity|].
  destruct (String.eqb_spec k k') as [E | N]; cbn; [exact IH|].
  destruct (String.eqb_spec k k') as [E | _]; [contradiction | exact IH].
Qed.

Lemma lookup_omit_other (k k0 : string) (fs : list (string * json)) :
  k <> k0 -> lookup k (omit k0 fs) = lookup k fs.
Proof.
  intro N. induction fs as [| [k' v] fs IH]; cbn; [reflexivity|].
  destruct (String.eqb_spec k0 k') as [E | N']; cbn.
  - subst k'. destruct (String.eqb_spec k k0) as [E | _];
      [contradiction | exact IH].
  - destruct (String.eqb k k'); [reflexivity | exact IH].
Qed.

(** C9 (get_userinfo goes to the live endpoint with the caller's token) --
    for a service built from any options (either environment, any client
    identity) and any cached credential, [getUserInfo] puts on the wire
    exactly one request: a GET, through the global axios object, of the
    fixed address under https://api-m.paypal.com, bearing the
    [access_token] of its arguments.  The address is not built from the
    service's base endpoint, and the credential the service holds is
    neither used nor touched. *)
Theorem getUserInfo_request (options : PayPalAuthOptions) (net : network)
  (w : world) (args : list (string * json)) (token : string) :
  lookup "access_token" args = Some (JStr token) ->
  let out := fst (exec net (getUserInfo args (new options)) w) in
  exists q,
    sent out = (sent w ++ [q])%list
    /\ target q
       = "https://api-m.paypal.com/v1/identity/oauth2/userinfo?schema=paypalv1.1"
    /\ baseURL q = None
    /\ meth q = GET
    /\ header "Authorization" q = Some ("Bearer " ++ token)
    /\ tokenData out = tokenData w.
Proof.
  intros Hargs out. unfold out, getUserInfo. rewrite Hargs.
  cbn [logger bind exec try_catch template to_string].
  match goal with
  | |- context [api net ?n ?q] => destruct (api net n q)
  end; eexists; repeat split.
Qed.

Lemma getUserInfo_request_witness :
  let options := {| options_clientId := "client";
                    options_clientSecret := "s3cret";
                    options_environment := sandbox |} in
  let net := Scenario.provider 300 Scenario.unauthorized 0 in
  let out := fst (exec net (getUserInfo [("access_token", JStr "user-token")]
                              (new options)) Scenario.warm) in
  baseUrl (new options) = "https://api-m.sandbox.paypal.com"
  /\ exists q,
       sent out = (sent Scenario.warm ++ [q])%list
       /\ target q
          = "https://api-m.paypal.com/v1/identity/oauth2/userinfo?schema=paypalv1.1"
       /\ baseURL q = None
       /\ meth q = GET
       /\ header "Authorization" q = Some ("Bearer " ++ "user-token")
       /\ tokenData out = tokenData Scenario.warm.
Proof.
  intros options net. split; [reflexivity|].
  apply (getUserInfo_request options net Scenario.warm
           [("access_token", JStr "user-token")] "user-token").
  reflexivity.
Defined.

(** C10 (create_subscription forwards everything but plan_id) -- the
    handler first logs the plan identifier; then, when the credential is
    ensured, it sends exactly one more request, a POST to
    /v1/billing/subscriptions under the service's base endpoint whose body
    is the argument object without its [plan_id] property, every other
    property being kept with its value; when the credential cannot be
    ensured nothing more is sent and that error is the result. *)
Theorem createSubscription_forwards_all_but_plan_id
  (args : list (string * json)) (authService : PayPalAuthService)
  (net : network) (w : world) :
  let rest := omit "plan_id" args in
  let out := exec net (createSubscription args authService) w in
  let auth := exec net (ensureAccessToken authService) w in
  (lookup "plan_id" rest = None
   /\ forall k, k <> "plan_id" -> lookup k rest = lookup k args)
  /\ nth_error (logs (fst out)) (List.length (logs w))
     = Some {| log_level := LInfo;
               log_text := "Creating subscription for plan: "
                           ++ template (lookup "plan_id" args);
               log_args := [] |}
  /\ match snd auth with
     | Resolved _ =>
         exists q,
           sent (fst out) = (sent (fst auth) ++ [q])%list
           /\ target q = baseUrl authService ++ "/v1/billing/subscriptions"
           /\ meth q = POST
           /\ body q = Some (JObj rest)
     | Raised e =>
         sent (fst out) = sent (fst auth) /\ snd out = Raised e
     end.
Proof.
  intros rest out auth.
  split; [split; [apply lookup_omit_same | intros k; apply lookup_omit_other]|].
  unfold out, createSubscription. cbn [logger bind exec].
  set (l1 := {| log_level := LInfo; log_text := _; log_args := [] |}).
  set (l2 := {| log_level := LDebug; log_text := _; log_args := _ |}).
  set (w2 := add_log l2 (add_log l1 w)).
  split.
  - match goal with
    | |- context [exec net ?p w2] =>
        destruct (exec_appends_logs net p w2) as [l Hl]
    end.
    rewrite Hl. unfold w2. cbn [add_log logs].
    rewrite <- !app_assoc. rewrite nth_error_app2 by lia.
    rewrite Nat.sub_diag. reflexivity.
  - assert (Hsame : same_state w2 w) by (split; reflexivity).
    destruct (exec_ignores_logs net (ensureAccessToken authService) w2 w Hsame)
      as [[Ht Hs] Hr].
    fold auth in Ht, Hs, Hr.
    unfold getAuthenticatedClient. rewrite !exec_bind.
    destruct (exec net (ensureAccessToken authService) w2) as [w3 r3].
    cbn [fst snd] in Ht, Hs, Hr. rewrite <- Hr, <- Hs.
    destruct r3 as [tok | e]; [| split; reflexivity].
    cbn [exec bind]. unfold client_call.
    rewrite exec_try_catch, exec_bind. cbn [exec].
    match goal with
    | |- context [api net ?n ?q] => destruct (api net n q) as [r | x]
    end.
    + eexists. repeat split.
    + destruct (handleRequestError_raises (A := response json) net x
                  (send (client_request
                           {| client_baseURL := baseUrl authService;
                              client_headers :=
                                [("Authorization",
                                  "Bearer " ++ match tokenData w3 with
                                               | Some t => access_token t
                                               | None => "undefined"
                                               end);
                                 ("Content-Type", "application/json")] |}
                           POST "/v1/billing/subscriptions"
                           (Some (JObj (omit "plan_id" args)))) w3))
        as (w4 & e4 & He & Hsent & _).
      rewrite He. cbn [logger bind exec fst add_log sent].
      rewrite Hsent. eexists. repeat split.
Qed.

End ToolFacts.

(* ------------------------------------------------------------------ *)
(** ** Facts about concurrent calls *)

Module LoopFacts.

Import Auth Loop.

Lemma nth_error_replace_same {X : Type} (l : list X) :
  forall (i : nat) (x y : X),
    nth_error l i = Some y -> nth_error (replace i x l) i = Some x.
Proof.
  induction l as [| z l IH]; intros [| i] x y H; cbn in *;
    try discriminate; [reflexivity | eapply IH; eassumption].
Qed.

Lemma nth_error_replace_other {X : Type} (l : list X) :
  forall (i j : nat) (x : X),
    i <> j -> nth_error (replace i x l) j = nth_error l j.
Proof.
  induction l as [| z l IH]; intros [| i] [| j] x N; cbn;
    try reflexivity; [contradiction | apply IH; congruence].
Qed.

Lemma run_cons {A : Type} (entry : proc A) (ev : event) (evs : list event)
  (s : system A) :
  run entry (ev :: evs) s = run entry evs (step entry s ev).
Proof. reflexivity. Qed.

Lemma run_app {A : Type} (entry : proc A) (evs1 evs2 : list event)
  (s : system A) :
  run entry (evs1 ++ evs2) s = run entry evs2 (run entry evs1 s).
Proof. apply fold_left_app. Qed.

(** A call that finds no valid credential suspends on an exchange of its
    own. *)
Lemma segment_ensureAccessToken_stale (this : PayPalAuthService) (now : Z)
  (w : world) :
  no_valid_credential w now ->
  segment now (ensureAccessToken this) w
  = (send (token_request this) w, OnToken (exchange_continuation this)).
Proof.
  unfold no_valid_credential, ensureAccessToken. cbn [segment bind].
  destruct (tokenData w) as [t|]; [|reflexivity].
  destruct (expiration t) as [e|]; [|reflexivity].
  intro H. destruct (e =? 0); [reflexivity|]. cbn [segment bind].
  replace (now <? e - tokenExpiryBuffer * 1000) with false; [reflexivity|].
  symmetry. apply Z.ltb_ge. exact H.
Qed.

(** When its answer arrives, a suspended call stores it and settles with
    its token. *)
Lemma segment_exchange_fulfilled (this : PayPalAuthService) (a : arrival)
  (w : world) :
  segment (at_time a) (exchange_continuation this (Fulfilled (reply a))) w
  = (add_log {| log_level := LDebug;
                log_text := "Obtained new PayPal access token";
                log_args := [] |}
       (set_tokenData (Some (credential_of a)) w),
     Done (Resolved (access_token (data (reply a))))).
Proof. reflexivity. Qed.

Lemma step_deliver_waiting (this : PayPalAuthService) (s : system string)
  (a : arrival) :
  nth_error (calls s) (call a) = Some (OnToken (exchange_continuation this)) ->
  step (ensureAccessToken this) s (deliver a)
  = {| shared :=
         add_log {| log_level := LDebug;
                    log_text := "Obtained new PayPal access token";
                    log_args := [] |}
           (set_tokenData (Some (credential_of a)) (shared s));
       calls := replace (call a)
                  (Done (Resolved (access_token (data (reply a)))))
                  (calls s) |}.
Proof.
  intro H. unfold deliver. cbn [step]. rewrite H.
  rewrite segment_exchange_fulfilled. reflexivity.
Qed.

(** [n] invocations in a row, none finding a valid credential. *)
Lemma run_invocations (this : PayPalAuthService) (starts : list Z) :
  forall s : system string,
    (forall now, In now starts -> no_valid_credential (shared s) now) ->
    let s' := run (ensureAccessToken this) (map Invoke starts) s in
    tokenData (shared s') = tokenData (shared s)
    /\ sent (shared s')
       = (sent (shared s)
          ++ repeat (token_request this) (List.length starts))%list
    /\ calls s'
       = (calls s
          ++ repeat (OnToken (exchange_continuation this))
               (List.length starts))%list.
Proof.
  induction starts as [| now starts IH]; intros s H.
  - cbn. rewrite !app_nil_r. repeat split.
  - rewrite map_cons, run_cons. cbn [step].
    rewrite segment_ensureAccessToken_stale by (apply H; left; reflexivity).
    match goal with
    | |- context [run _ _ ?s1] => destruct (IH s1) as (Ht & Hs & Hc)
    end.
    + intros now' Hin. apply (H now'). right. exact Hin.
    + cbv zeta. rewrite Ht, Hs, Hc. cbn. rewrite <- !app_assoc.
      repeat split.
Qed.

(** Successful answers arriving, in any order, for calls that wait. *)
Lemma run_arrivals (this : PayPalAuthService) (arrivals : list arrival) :
  forall s : system string,
    NoDup (map call arrivals) ->
    (forall a, In a arrivals ->
       nth_error (calls s) (call a)
       = Some (OnToken (exchange_continuation this))) ->
    let s' := run (ensureAccessToken this) (map deliver arrivals) s in
    sent (shared s') = sent (shared s)
    /\ (forall a, In a arrivals ->
          nth_error (calls s') (call a)
          = Some (Done (Resolved (access_token (data (reply a))))))
    /\ (forall j, ~ In j (map call arrivals) ->
          nth_error (calls s') j = nth_error (calls s) j).
Proof.
  induction arrivals as [| a arrivals IH]; intros s Hnd Hwait.
  - cbn. repeat split. intros a [].
  - cbn [map] in Hnd. inversion Hnd as [| i l Hnotin Hnd']; subst.
    rewrite map_cons, run_cons.
    rewrite step_deliver_waiting by (apply Hwait; left; reflexivity).
    match goal with
    | |- context [run _ _ ?s1] =>
        destruct (IH s1 Hnd') as (Hs & Hdone & Hkeep)
    end; cbv zeta.
    + intros b Hb. cbn [calls].
      rewrite nth_error_replace_other.
      * apply Hwait. right. exact Hb.
      * intro E. apply Hnotin. rewrite E. apply in_map. exact Hb.
    + split; [rewrite Hs; reflexivity|]. split.
      * intros b [<- | Hb]; [|apply Hdone; exact Hb].
        rewrite (Hkeep _ Hnotin). cbn [calls].
        eapply nth_error_replace_same. apply Hwait. left. reflexivity.
      * intros j Hj. rewrite Hkeep by (intro; apply Hj; right; assumption).
        cbn [calls]. apply nth_error_replace_other.
        intro E. apply Hj. left. exact E.
Qed.

(** C1, as stated, fails -- two calls made before any answer arrives,
    with nothing cached, put two exchange requests on the wire and resolve
    to two different tokens; and when the answer to the exchange sent
    first arrives last, it overwrites the credential the other had
    stored. *)
Lemma two_concurrent_calls_exchange_twice :
  let entry := ensureAccessToken Scenario.service in
  let A := Fulfilled (Scenario.ok (Scenario.issued "A" 32400)) in
  let B := Fulfilled (Scenario.ok (Scenario.issued "B" 32400)) in
  let s := run entry [Invoke 0; Invoke 0;
                      TokenArrives 0 10 A; TokenArrives 1 20 B]
             (start Scenario.cold) in
  let s' := run entry [Invoke 0; Invoke 0;
                       TokenArrives 1 10 B; TokenArrives 0 20 A]
              (start Scenario.cold) in
  sent (shared s)
  = [token_request Scenario.service; token_request Scenario.service]
  /\ calls s = [Done (Resolved "A"); Done (Resolved "B")]
  /\ calls s' = [Done (Resolved "A"); Done (Resolved "B")]
  /\ option_map access_token (tokenData (shared s')) = Some "A".
Proof.
  repeat split; reflexivity.
Qed.

(** C1, amended -- there is no single flight.  When no valid credential
    is cached, [n] calls of [ensureAccessToken] made before any answer
    arrives put [n] exchange requests on the wire, one each.  When the
    answers then arrive, in any order, no further request is sent, every
    answered call resolves to the token of its own answer, and the
    credential left in the cache is the one of the answer that arrived
    last. *)
Theorem every_concurrent_call_exchanges (this : PayPalAuthService)
  (w : world) (starts : list Z) (arrivals : list arrival) :
  (forall now, In now starts -> no_valid_credential w now) ->
  NoDup (map call arrivals) ->
  (forall a, In a arrivals -> (call a < List.length starts)%nat) ->
  let invoked := run (ensureAccessToken this) (map Invoke starts) (start w) in
  let answered := run (ensureAccessToken this) (map deliver arrivals) invoked in
  sent (shared invoked)
  = (sent w ++ repeat (token_request this) (List.length starts))%list
  /\ sent (shared answered) = sent (shared invoked)
  /\ (forall a, In a arrivals ->
        nth_error (calls answered) (call a)
        = Some (Done (Resolved (access_token (data (reply a))))))
  /\ (forall earlier a, arrivals = (earlier ++ [a])%list ->
        tokenData (shared answered) = Some (credential_of a)).
Proof.
  intros Hstale Hnd Hlt invoked answered.
  destruct (run_invocations this starts (start w) Hstale) as (_ & Hsent & Hcalls).
  fold invoked in Hsent, Hcalls. cbn [start shared calls app] in Hsent, Hcalls.
  assert (Hwait : forall l a, In a l -> (call a < List.length starts)%nat ->
            nth_error (calls invoked) (call a)
            = Some (OnToken (exchange_continuation this))).
  { intros l a _ Ha. rewrite Hcalls. apply nth_error_repeat. exact Ha. }
  destruct (run_arrivals this arrivals invoked Hnd) as (Hs & Hdone & _).
  { intros a Ha. apply (Hwait arrivals a Ha). apply Hlt. exact Ha. }
  fold answered in Hs, Hdone.
  split; [exact Hsent|]. split; [exact Hs|]. split; [exact Hdone|].
  intros earlier a E. unfold answered. rewrite E, map_app, run_app.
  rewrite E, map_app in Hnd.
  destruct (run_arrivals this earlier invoked) as (_ & _ & Hkeep).
  { eapply NoDup_app_remove_r. exact Hnd. }
  { intros b Hb. apply (Hwait earlier b Hb). apply Hlt. rewrite E.
    apply in_or_app. left. exact Hb. }
  cbn [map]. rewrite run_cons. cbn [run fold_left].
  rewrite step_deliver_waiting.
  - reflexivity.
  - rewrite Hkeep.
    + apply (Hwait arrivals a).
      * rewrite E. apply in_or_app. right. left. reflexivity.
      * apply Hlt. rewrite E. apply in_or_app. right. left. reflexivity.
    + cbn [map] in Hnd. apply NoDup_remove_2 in Hnd.
      rewrite app_nil_r in Hnd. exact Hnd.
Qed.

Lemma every_concurrent_call_exchanges_witness :
  let arrivals :=
    [ {| call := 1; at_time := 10;
         reply := Scenario.ok (Scenario.issued "B" 32400) |};
      {| call := 0; at_time := 20;
         reply := Scenario.ok (Scenario.issued "A" 300) |} ] in
  let invoked := run (ensureAccessToken Scenario.service)
                   (map Invoke [0; 0]) (start Scenario.cold) in
  let answered := run (ensureAccessToken Scenario.service)
                    (map deliver arrivals) invoked in
  sent (shared invoked)
  = (sent Scenario.cold
     ++ repeat (token_request Scenario.service) (List.length [0; 0]))%list
  /\ sent (shared answered) = sent (shared invoked)
  /\ (forall a, In a arrivals ->
        nth_error (calls answered) (call a)
        = Some (Done (Resolved (access_token (data (reply a))))))
  /\ (forall earlier a, arrivals = (earlier ++ [a])%list ->
        tokenData (shared answered) = Some (credential_of a)).
Proof.
  intro arrivals.
  apply (every_concurrent_call_exchanges Scenario.service Scenario.cold
           [0; 0] arrivals).
  - intros now _. exact I.
  - repeat constructor; cbn; intuition discriminate.
  - intros a [<- | [<- | []]]; cbn; lia.
Defined.

End LoopFacts.

(* ------------------------------------------------------------------ *)
(** ** More about the authentication service *)

Module AuthMore.

Import Validation Auth AsyncFacts AuthFacts.

(** What the rejection handler does to the world, and that the error it
    raises depends on nothing but the error it was given. *)
Lemma handleRequestError_effect {A B : Type} (net net' : network)
  (x : thrown) (w w' : world) :
  let out := exec net (@handleRequestError A x) w in
  snd (exec net' (@handleRequestError B x) w')
  = match snd out with
    | Raised e => Raised e
    | Resolved _ => Raised x
    end
  /\ (exists e, snd out = Raised e)
  /\ sent (fst out) = sent w
  /\ tokenData (fst out)
     = match x with
       | AxiosError _ _ (Some r) =>
           if status r =? 401 then None else tokenData w
       | _ => tokenData w
       end.
Proof.
  destruct x as [msg cfg [r|] | msg]; cbn [handleRequestError option_map
    logger bind exec fst snd truthy_opt andb].
  - destruct (status r =? 401); cbn; [eauto 6|].
    destruct (truthy (data r)
              && truthy_opt (get_prop (data r) "error_description"))%bool;
      cbn; [eauto 6|].
    destruct (truthy (data r)
              && truthy_opt (get_prop (data r) "message"))%bool;
      cbn; eauto 6.
  - cbn. eauto 6.
  - cbn. eauto 6.
Qed.

(** [ensureAccessToken] either answers from the cache, touching nothing,
    or does what [getAccessToken] does. *)
Lemma ensureAccessToken_cases (this : PayPalAuthService) (net : network)
  (w : world) :
  (exists t, tokenData w = Some t
             /\ exec net (ensureAccessToken this) w
                = (w, Resolved (access_token t)))
  \/ exec net (ensureAccessToken this) w = exec net (getAccessToken this) w.
Proof.
  unfold ensureAccessToken. cbn [exec bind].
  destruct (tokenData w) as [t|] eqn:Ht; [|right; reflexivity].
  destruct (expiration t) as [e|]; [|right; reflexivity].
  destruct (e =? 0); [right; reflexivity|]. cbn [exec bind].
  destruct (_ <? _); [left | right; reflexivity].
  exists t. split; reflexivity.
Qed.

(** How [ensureAccessToken] can end. *)
Lemma ensureAccessToken_ends (this : PayPalAuthService) (net : network)
  (w : world) :
  let out := exec net (ensureAccessToken this) w in
  match snd out with
  | Resolved token =>
      (exists t, tokenData (fst out) = Some t /\ access_token t = token)
      /\ (sent (fst out) = sent w
          \/ sent (fst out) = (sent w ++ [token_request this])%list)
  | Raised e =>
      e = Error "Failed to authenticate with PayPal API"
      /\ sent (fst out) = (sent w ++ [token_request this])%list
  end.
Proof.
  intro out. unfold out.
  destruct (ensureAccessToken_cases this net w) as [(t & Ht & E) | E];
    rewrite E.
  - cbn. split; [exists t; split; [exact Ht | reflexivity] | left; reflexivity].
  - destruct (token_endpoint net (List.length (sent w)) (token_request this))
      as [r | x] eqn:H.
    + rewrite (getAccessToken_fulfilled _ _ _ _ H). cbn.
      split; [eexists; split; reflexivity | right; reflexivity].
    + destruct (getAccessToken_rejected _ _ _ _ H) as (w' & He & Hs).
      rewrite He. cbn. split; [reflexivity | exact Hs].
Qed.

(** X1 -- however [ensureAccessToken] ends, the cache agrees with it: when
    it resolves, a credential is cached and the token returned is that
    credential's; when it raises, the error is the fixed authentication
    error.  It sends no request or exactly one, the credential exchange. *)
Theorem ensureAccessToken_outcome (this : PayPalAuthService) (net : network)
  (w : world) :
  let out := exec net (ensureAccessToken this) w in
  match snd out with
  | Resolved token =>
      (exists t, tokenData (fst out) = Some t /\ access_token t = token)
      /\ (sent (fst out) = sent w
          \/ sent (fst out) = (sent w ++ [token_request this])%list)
  | Raised e =>
      e = Error "Failed to authenticate with PayPal API"
      /\ sent (fst out) = (sent w ++ [token_request this])%list
  end.
Proof.
  apply ensureAccessToken_ends.
Qed.

(** X2 -- a client handed out by [getAuthenticatedClient] is bound to the
    base endpoint of the service and bears the token of the credential
    that is cached when it is handed out; a credential is then always
    cached. *)
Theorem authenticated_client_bears_cached_token (this : PayPalAuthService)
  (net : network) (w w' : world) (c : client) :
  exec net (getAuthenticatedClient this) w = (w', Resolved c) ->
  exists t,
    tokenData w' = Some t
    /\ client_baseURL c = baseUrl this
    /\ client_headers c
       = [("Authorization", "Bearer " ++ access_token t);
          ("Content-Type", "application/json")].
Proof.
  unfold getAuthenticatedClient. rewrite exec_bind.
  pose proof (ensureAccessToken_ends this net w) as Hout. cbv zeta in Hout.
  destruct (exec net (ensureAccessToken this) w) as [w1 [token | e]];
    cbn [fst snd] in Hout; [|discriminate].
  destruct Hout as [(t & Ht & _) _].
  cbn [exec bind]. rewrite Ht. intro E. injection E as <- <-.
  exists t. repeat split. exact Ht.
Qed.

Lemma authenticated_client_bears_cached_token_witness :
  exists t,
    tokenData Scenario.warm = Some t
    /\ client_baseURL
         {| client_baseURL := "https://api-m.sandbox.paypal.com";
            client_headers := [("Authorization", "Bearer A");
                               ("Content-Type", "application/json")] |}
       = baseUrl Scenario.service
    /\ client_headers
         {| client_baseURL := "https://api-m.sandbox.paypal.com";
            client_headers := [("Authorization", "Bearer A");
                               ("Content-Type", "application/json")] |}
       = [("Authorization", "Bearer " ++ access_token t);
          ("Content-Type", "application/json")].
Proof.
  apply (authenticated_client_bears_cached_token Scenario.service
           (Scenario.provider 32400 Scenario.unauthorized 1000)
           Scenario.warm Scenario.warm).
  reflexivity.
Defined.

(** X3 -- [verifyCredentials] does not look at the cache: it always sends
    the credential exchange, and when the provider answers it, it returns
    [true] and the cache holds the credential just issued in place of
    whatever was there. *)
Theorem verifyCredentials_exchanges_anew (this : PayPalAuthService)
  (net : network) (w : world) (r : response TokenResponse) :
  token_endpoint net (List.length (sent w)) (token_request this) = Fulfilled r ->
  let out := exec net (verifyCredentials this) w in
  snd out = Resolved true
  /\ sent (fst out) = (sent w ++ [token_request this])%list
  /\ tokenData (fst out)
     = Some (with_expiration (data r)
               (clock net (S (List.length (sent w)))
                + expires_in (data r) * 1000)).
Proof.
  intros H out. unfold out, verifyCredentials.
  rewrite exec_try_catch, exec_bind.
  rewrite (getAccessToken_fulfilled _ _ _ _ H). cbn. repeat split.
Qed.

Lemma verifyCredentials_exchanges_anew_witness :
  let net := Cases.answering JNull 5000 in
  let out := exec net (verifyCredentials Scenario.service) Scenario.warm in
  snd out = Resolved true
  /\ sent (fst out)
     = (sent Scenario.warm ++ [token_request Scenario.service])%list
  /\ tokenData (fst out)
     = Some (with_expiration
               (data (Scenario.ok (Scenario.issued "B" 32400)))
               (clock net (S (List.length (sent Scenario.warm)))
                + expires_in (data (Scenario.ok (Scenario.issued "B" 32400)))
                  * 1000)).
Proof.
  intro net.
  apply (verifyCredentials_exchanges_anew Scenario.service net Scenario.warm
           (Scenario.ok (Scenario.issued "B" 32400))).
  reflexivity.
Defined.

(** X4 -- a credential exchange that fails stores nothing: the credential
    cached before stays, except when the provider answered the exchange
    with status 401, which empties the cache. *)
Theorem failed_exchange_keeps_or_clears (this : PayPalAuthService)
  (net : network) (w : world) (x : thrown) :
  token_endpoint net (List.length (sent w)) (token_request this) = Rejected x ->
  tokenData (fst (exec net (getAccessToken this) w))
  = match x with
    | AxiosError _ _ (Some r) => if status r =? 401 then None else tokenData w
    | _ => tokenData w
    end.
Proof.
  intro H. unfold getAccessToken. rewrite exec_try_catch.
  cbn [bind exec]. rewrite H. rewrite exec_bind.
  destruct (handleRequestError_effect (A := response TokenResponse)
              (B := unit) net net x (send (token_request this) w) w)
    as (_ & (e & He) & _ & Ht).
  destruct (exec net (@handleRequestError (response TokenResponse) x)
              (send (token_request this) w)) as [w1 r1]. cbn [fst snd] in He, Ht. subst r1.
  cbn. exact Ht.
Qed.

Lemma failed_exchange_keeps_or_clears_witness :
  tokenData (fst (exec (Scenario.outage Cases.timeout)
                    (getAccessToken Scenario.service) Scenario.warm))
  = tokenData Scenario.warm.
Proof.
  apply (failed_exchange_keeps_or_clears Scenario.service
           (Scenario.outage Cases.timeout) Scenario.warm Cases.timeout).
  reflexivity.
Defined.

(** X5 -- a failure the handler has nothing to say about is passed on as
    it came: an error that is not an axios error, a failure without any
    answer (timeout, connection lost), or an answer with a status other
    than 401 whose body has neither a truthy [error_description] nor a
    truthy [message].  The credential stays and nothing is sent. *)
Theorem unrecognised_failure_is_passed_on (A : Type) (net : network)
  (w : world) (x : thrown) :
  match x with
  | AxiosError _ _ (Some r) =>
      status r <> 401
      /\ truthy_opt (get_prop (data r) "error_description") = false
      /\ truthy_opt (get_prop (data r) "message") = false
  | _ => True
  end ->
  let out := exec net (@handleRequestError A x) w in
  snd out = Raised x
  /\ tokenData (fst out) = tokenData w
  /\ sent (fst out) = sent w.
Proof.
  intros H out. unfold out.
  destruct x as [msg cfg [r|] | msg];
    cbn [handleRequestError option_map logger bind exec truthy_opt].
  - destruct H as (Hs & Hd & Hm).
    destruct (Z.eqb_spec (status r) 401) as [E | _]; [contradiction|].
    rewrite Hd, Hm, !andb_false_r. cbn. repeat split.
  - cbn. repeat split.
  - cbn. repeat split.
Qed.

Lemma unrecognised_failure_is_passed_on_witness :
  let out := exec (Scenario.outage Cases.timeout)
               (@handleRequestError unit Cases.timeout) Scenario.warm in
  snd out = Raised Cases.timeout
  /\ tokenData (fst out) = tokenData Scenario.warm
  /\ sent (fst out) = sent Scenario.warm.
Proof.
  apply (unrecognised_failure_is_passed_on unit
           (Scenario.outage Cases.timeout) Scenario.warm Cases.timeout).
  exact I.
Defined.

(** X6 -- status 401 comes first: whatever the body of the answer says,
    a description of its own included, the error raised is the fixed
    authentication error. *)
Theorem unauthorized_message_ignores_body (A : Type) (net : network)
  (w : world) (msg : string) (config : option request)
  (r : response json) :
  status r = 401 ->
  snd (exec net (@handleRequestError A (AxiosError msg config (Some r))) w)
  = Raised (Error
      "Authentication failed with PayPal API. Token may have expired.").
Proof.
  intro H. cbn [handleRequestError option_map logger bind exec].
  rewrite H. reflexivity.
Qed.

Lemma unauthorized_message_ignores_body_witness :
  snd (exec (Scenario.outage Cases.timeout)
         (@handleRequestError unit
            (AxiosError "Request failed with status code 401" None
               (Some Cases.expired_token))) Scenario.warm)
  = Raised (Error
      "Authentication failed with PayPal API. Token may have expired.").
Proof.
  apply (unauthorized_message_ignores_body unit
           (Scenario.outage Cases.timeout) Scenario.warm
           "Request failed with status code 401" None Cases.expired_token).
  reflexivity.
Defined.

(** X7 -- the life of a cached credential: one issued when the clock read
    [t] with [expires_in = n] is served from the cache, without any
    request, at every later reading below [t + (n - 300) * 1000], and is
    renewed by a fresh exchange at every reading from there on. *)
Theorem credential_lifetime (this : PayPalAuthService) (net net' : network)
  (w : world) (r : response TokenResponse) :
  token_endpoint net (List.length (sent w)) (token_request this) = Fulfilled r ->
  let w1 := fst (exec net (getAccessToken this) w) in
  let t := clock net (S (List.length (sent w))) in
  let now := clock net' (List.length (sent w1)) in
  0 <= now ->
  (now < t + (expires_in (data r) - 300) * 1000 ->
   exec net' (ensureAccessToken this) w1
   = (w1, Resolved (access_token (data r))))
  /\ (t + (expires_in (data r) - 300) * 1000 <= now ->
      sent (fst (exec net' (ensureAccessToken this) w1))
      = (sent w1 ++ [token_request this])%list).
Proof.
  intros H w1 t now Hpos.
  assert (Htd : tokenData w1
                = Some (with_expiration (data r)
                          (t + expires_in (data r) * 1000))).
  { unfold w1. rewrite (getAccessToken_fulfilled _ _ _ _ H). reflexivity. }
  split; intro Hnow.
  - unfold ensureAccessToken. cbn [exec bind]. rewrite Htd.
    cbn [expiration with_expiration].
    destruct (Z.eqb_spec (t + expires_in (data r) * 1000) 0) as [E | _];
      [fold now in Hpos; lia|].
    cbn [exec bind]. fold now. unfold tokenExpiryBuffer.
    destruct (Z.ltb_spec now (t + expires_in (data r) * 1000 - 300 * 1000));
      [reflexivity | lia].
  - rewrite ensureAccessToken_renews.
    + apply getAccessToken_sends_exchange.
    + unfold Loop.no_valid_credential. rewrite Htd. cbn.
      unfold tokenExpiryBuffer. fold now. lia.
Qed.

Lemma credential_lifetime_witness :
  let net := Cases.answering JNull 5000 in
  let net' := Cases.answering JNull 6000 in
  let r := Scenario.ok (Scenario.issued "B" 32400) in
  let w1 := fst (exec net (getAccessToken Scenario.service) Scenario.cold) in
  let t := clock net (S (List.length (sent Scenario.cold))) in
  let now := clock net' (List.length (sent w1)) in
  (now < t + (expires_in (data r) - 300) * 1000 ->
   exec net' (ensureAccessToken Scenario.service) w1
   = (w1, Resolved (access_token (data r))))
  /\ (t + (expires_in (data r) - 300) * 1000 <= now ->
      sent (fst (exec net' (ensureAccessToken Scenario.service) w1))
      = (sent w1 ++ [token_request Scenario.service])%list).
Proof.
  intros net net' r.
  apply (credential_lifetime Scenario.service net net' Scenario.cold r).
  - reflexivity.
  - cbn. lia.
Defined.

End AuthMore.

(* ------------------------------------------------------------------ *)
(** ** Facts about the other tool handlers *)

Module HandlerFacts.

Import Validation Auth Tools Handlers AsyncFacts AuthFacts AuthMore.

(** The part all these handlers share: get an authenticated client, make
    one call through it, return the data or wrap the failure. *)
Lemma guarded_call (this : PayPalAuthService) (net : network)
  (w0 w : world) (m : method) (path : string) (payload : option json)
  (failed prefix : string) :
  same_state w0 w ->
  let out :=
    exec net
      (bind (getAuthenticatedClient this)
         (fun client =>
            try_catch
              (bind (client_call client m path payload)
                 (fun response => Ret (data response)))
              (fun error =>
                 bind (logger LError failed [LThrown error])
                   (fun _ => Throw (Error (prefix ++ describe error))))))
      w0 in
  let auth := exec net (ensureAccessToken this) w in
  match snd auth with
  | Raised e =>
      snd out = Raised e
      /\ sent (fst out) = sent (fst auth)
      /\ tokenData (fst out) = tokenData (fst auth)
  | Resolved token =>
      let q := client_request
                 {| client_baseURL := baseUrl this;
                    client_headers :=
                      [("Authorization", "Bearer " ++ token);
                       ("Content-Type", "application/json")] |}
                 m path payload in
      sent (fst out) = (sent (fst auth) ++ [q])%list
      /\ match api net (List.length (sent (fst auth))) q with
         | Fulfilled r =>
             snd out = Resolved (data r)
             /\ tokenData (fst out) = tokenData (fst auth)
         | Rejected x =>
             (exists e,
                snd (exec net (@handleRequestError unit x) w) = Raised e
                /\ snd out = Raised (Error (prefix ++ message_of e)))
             /\ tokenData (fst out)
                = match x with
                  | AxiosError _ _ (Some r) =>
                      if status r =? 401 then None
                      else tokenData (fst auth)
                  | _ => tokenData (fst auth)
                  end
         end
  end.
Proof.
  intros Hsame out auth. unfold out, auth. clear out auth.
  destruct (exec_ignores_logs net (ensureAccessToken this) w0 w Hsame)
    as [[Ht Hs] Hr].
  pose proof (ensureAccessToken_ends this net w0) as Hout.
  cbv zeta in Hout.
  unfold getAuthenticatedClient. rewrite !exec_bind.
  destruct (exec net (ensureAccessToken this) w0) as [w1 r1].
  destruct (exec net (ensureAccessToken this) w) as [w1' r1'].
  cbn [fst snd] in *. subst r1'.
  destruct r1 as [token | e]; [| repeat split; assumption].
  destruct Hout as [(t & Htd & Htok) _].
  cbn [exec bind]. rewrite Htd, Htok.
  unfold client_call. rewrite exec_try_catch, exec_bind. cbn [exec].
  rewrite <- Hs.
  match goal with
  | |- context [api net ?n ?q] => destruct (api net n q) as [r | x]
  end.
  - cbn. rewrite Hs. rewrite <- Ht, Htd. repeat split.
  - match goal with
    | |- context [exec net (@handleRequestError ?A x) ?w2] =>
        destruct (handleRequestError_effect (A := A) (B := unit)
                    net net x w2 w) as (Hsame_e & (e & He) & Hsent & Htok')
    end.
    match type of He with
    | snd ?run = _ => destruct run as [w3 r3]
    end.
    cbn [fst snd] in *. subst r3. cbn [logger bind exec fst snd add_log sent
      tokenData describe].
    rewrite Hsent. cbn [send sent]. rewrite Hs. split; [reflexivity|].
    split.
    + exists e. split; [exact Hsame_e | reflexivity].
    + rewrite Htok'. cbn [send tokenData]. rewrite <- Ht. reflexivity.
Qed.

Lemma forward_run (info debug path failed prefix : string)
  (args : list (string * json)) (this : PayPalAuthService) (net : network)
  (w : world) :
  let out := exec net (forward info debug path failed prefix args this) w in
  let auth := exec net (ensureAccessToken this) w in
  match snd auth with
  | Raised e =>
      snd out = Raised e
      /\ sent (fst out) = sent (fst auth)
      /\ tokenData (fst out) = tokenData (fst auth)
  | Resolved token =>
      let q := client_request
                 {| client_baseURL := baseUrl this;
                    client_headers :=
                      [("Authorization", "Bearer " ++ token);
                       ("Content-Type", "application/json")] |}
                 POST path (Some (JObj args)) in
      sent (fst out) = (sent (fst auth) ++ [q])%list
      /\ match api net (List.length (sent (fst auth))) q with
         | Fulfilled r =>
             snd out = Resolved (data r)
             /\ tokenData (fst out) = tokenData (fst auth)
         | Rejected x =>
             (exists e,
                snd (exec net (@handleRequestError unit x) w) = Raised e
                /\ snd out = Raised (Error (prefix ++ message_of e)))
             /\ tokenData (fst out)
                = match x with
                  | AxiosError _ _ (Some r) =>
                      if status r =? 401 then None
                      else tokenData (fst auth)
                  | _ => tokenData (fst auth)
                  end
         end
  end.
Proof.
  unfold forward. cbn [logger bind exec].
  apply guarded_call. split; reflexivity.
Qed.

Lemma forwarding_handlers_are_forward
  (h : list (string * json) -> PayPalAuthService -> proc json)
  (path prefix : string) :
  In (h, path, prefix) forwarding_handlers ->
  exists info debug failed, h = forward info debug path failed prefix.
Proof.
  intro H. cbn in H.
  repeat (destruct H as [H | H];
          [injection H as <- <- <-; do 3 eexists; reflexivity|]).
  destruct H.
Qed.

(** X8 -- [createPaymentToken], [createOrder], [createPayment],
    [createProduct], [createPayout] and [createWebProfile] post their
    arguments as they came: once the credential is ensured, each sends
    exactly one more request, a POST to its path under the base endpoint
    of the service, with the whole argument object as body and the ensured
    token as bearer.  When the credential cannot be ensured nothing more
    is sent and the authentication error is raised as it is, without the
    handler's own text. *)
Theorem forwarding_handlers_post_arguments
  (h : list (string * json) -> PayPalAuthService -> proc json)
  (path prefix : string) (args : list (string * json))
  (authService : PayPalAuthService) (net : network) (w : world) :
  In (h, path, prefix) forwarding_handlers ->
  let out := exec net (h args authService) w in
  let auth := exec net (ensureAccessToken authService) w in
  match snd auth with
  | Resolved token =>
      exists q,
        sent (fst out) = (sent (fst auth) ++ [q])%list
        /\ target q = baseUrl authService ++ path
        /\ meth q = POST
        /\ body q = Some (JObj args)
        /\ header "Authorization" q = Some ("Bearer " ++ token)
  | Raised e =>
      sent (fst out) = sent (fst auth) /\ snd out = Raised e
  end.
Proof.
  intros Hin out auth.
  destruct (forwarding_handlers_are_forward h path prefix Hin)
    as (info & debug & failed & ->).
  pose proof (forward_run info debug path failed prefix args authService
                net w) as H.
  cbv zeta in H. fold out auth in H.
  destruct (snd auth) as [token | e].
  - destruct H as [Hs _]. eexists. split; [exact Hs|]. repeat split.
  - destruct H as (Hr & Hs & _). split; assumption.
Qed.

Lemma forwarding_handlers_post_arguments_witness :
  let net := Cases.answering (JObj [("id", JStr "5O190127TN364715T")]) 1000 in
  let out := exec net (createOrder Cases.order_args Scenario.service)
               Scenario.cold in
  let auth := exec net (ensureAccessToken Scenario.service) Scenario.cold in
  match snd auth with
  | Resolved token =>
      exists q,
        sent (fst out) = (sent (fst auth) ++ [q])%list
        /\ target q = baseUrl Scenario.service ++ "/v2/checkout/orders"
        /\ meth q = POST
        /\ body q = Some (JObj Cases.order_args)
        /\ header "Authorization" q = Some ("Bearer " ++ token)
  | Raised e =>
      sent (fst out) = sent (fst auth) /\ snd out = Raised e
  end.
Proof.
  intro net.
  apply (forwarding_handlers_post_arguments createOrder
           "/v2/checkout/orders" "Failed to create order: "
           Cases.order_args Scenario.service net Scenario.cold).
  right. left. reflexivity.
Defined.

(** X9 -- what the provider answers is what the caller gets: when the
    business call is fulfilled, each of the six handlers returns the data
    of the response unchanged, and the cached credential stays. *)
Theorem forwarding_handlers_return_the_answer
  (h : list (string * json) -> PayPalAuthService -> proc json)
  (path prefix : string) (args : list (string * json))
  (authService : PayPalAuthService) (net : network) (w : world)
  (r : response json) :
  In (h, path, prefix) forwarding_handlers ->
  (forall n q, api net n q = Fulfilled r) ->
  let out := exec net (h args authService) w in
  let auth := exec net (ensureAccessToken authService) w in
  snd out = match snd auth with
            | Resolved _ => Resolved (data r)
            | Raised e => Raised e
            end
  /\ tokenData (fst out) = tokenData (fst auth).
Proof.
  intros Hin Hapi out auth.
  destruct (forwarding_handlers_are_forward h path prefix Hin)
    as (info & debug & failed & ->).
  pose proof (forward_run info debug path failed prefix args authService
                net w) as H.
  cbv zeta in H. fold out auth in H.
  destruct (snd auth) as [token | e].
  - destruct H as [_ H]. rewrite Hapi in H. exact H.
  - destruct H as (Hr & _ & Ht). split; assumption.
Qed.

Lemma forwarding_handlers_return_the_answer_witness :
  let answer := JObj [("id", JStr "5O190127TN364715T");
                      ("status", JStr "CREATED")] in
  let net := Cases.answering answer 1000 in
  let out := exec net (createOrder Cases.order_args Scenario.service)
               Scenario.cold in
  let auth := exec net (ensureAccessToken Scenario.service) Scenario.cold in
  snd out = match snd auth with
            | Resolved _ => Resolved (data (Scenario.ok answer))
            | Raised e => Raised e
            end
  /\ tokenData (fst out) = tokenData (fst auth).
Proof.
  intros answer net.
  apply (forwarding_handlers_return_the_answer createOrder
           "/v2/checkout/orders" "Failed to create order: "
           Cases.order_args Scenario.service net Scenario.cold
           (Scenario.ok answer)).
  - right. left. reflexivity.
  - intros n q. reflexivity.
Defined.

(** X10 -- a failed business call reaches the caller as a new error whose
    message is the handler's own text followed by the message of the error
    the response interceptor raised for that failure. *)
Theorem forwarding_handlers_wrap_failures
  (h : list (string * json) -> PayPalAuthService -> proc json)
  (path prefix : string) (args : list (string * json))
  (authService : PayPalAuthService) (net : network) (w : world)
  (x : thrown) (token : string) :
  In (h, path, prefix) forwarding_handlers ->
  (forall n q, api net n q = Rejected x) ->
  snd (exec net (ensureAccessToken authService) w) = Resolved token ->
  exists e,
    snd (exec net (@handleRequestError unit x) w) = Raised e
    /\ snd (exec net (h args authService) w)
       = Raised (Error (prefix ++ message_of e)).
Proof.
  intros Hin Hapi Hauth.
  destruct (forwarding_handlers_are_forward h path prefix Hin)
    as (info & debug & failed & ->).
  pose proof (forward_run info debug path failed prefix args authService
                net w) as H.
  cbv zeta in H. rewrite Hauth in H.
  destruct H as [_ H]. rewrite Hapi in H. destruct H as [H _]. exact H.
Qed.

Lemma forwarding_handlers_wrap_failures_witness :
  exists e,
    snd (exec (Cases.rejecting Scenario.invalid_client 1000)
           (@handleRequestError unit Scenario.invalid_client) Scenario.cold)
    = Raised e
    /\ snd (exec (Cases.rejecting Scenario.invalid_client 1000)
              (createProduct [("name", JStr "Widget")] Scenario.service)
              Scenario.cold)
       = Raised (Error ("Failed to create product: " ++ message_of e)).
Proof.
  apply (forwarding_handlers_wrap_failures createProduct
           "/v1/catalogs/products" "Failed to create product: "
           [("name", JStr "Widget")] Scenario.service
           (Cases.rejecting Scenario.invalid_client 1000) Scenario.cold
           Scenario.invalid_client "B").
  - do 3 right. left. reflexivity.
  - intros n q. reflexivity.
  - reflexivity.
Defined.

(** X11 -- a business call answered with status 401 fails with the
    handler's text followed by the fixed authentication message and leaves
    the cache empty; calling the handler again then starts with a fresh
    credential exchange. *)
Theorem unauthorized_handler_call_then_retry
  (h : list (string * json) -> PayPalAuthService -> proc json)
  (path prefix : string) (args : list (string * json))
  (authService : PayPalAuthService) (net : network) (w : world)
  (msg : string) (config : option request) (r : response json)
  (token : string) :
  In (h, path, prefix) forwarding_handlers ->
  (forall n q, api net n q = Rejected (AxiosError msg config (Some r))) ->
  status r = 401 ->
  snd (exec net (ensureAccessToken authService) w) = Resolved token ->
  let out := exec net (h args authService) w in
  snd out
  = Raised (Error (prefix ++
      "Authentication failed with PayPal API. Token may have expired."))
  /\ tokenData (fst out) = None
  /\ forall net', exists rest,
       sent (fst (exec net' (h args authService) (fst out)))
       = (sent (fst out) ++ token_request authService :: rest)%list.
Proof.
  intros Hin Hapi H401 Hauth out.
  destruct (forwarding_handlers_are_forward h path prefix Hin)
    as (info & debug & failed & ->).
  pose proof (forward_run info debug path failed prefix args authService
                net w) as H.
  cbv zeta in H. fold out in H. rewrite Hauth in H.
  destruct H as [_ H]. rewrite Hapi in H.
  destruct H as [(e & He & Hout) Htok].
  rewrite H401 in Htok. change (401 =? 401) with true in Htok.
  cbv iota in Htok.
  cbn [handleRequestError option_map logger bind exec] in He.
  rewrite H401 in He. change (401 =? 401) with true in He.
  cbn [exec snd] in He. injection He as <-.
  split; [exact Hout|]. split; [exact Htok|].
  intro net'.
  pose proof (forward_run info debug path failed prefix args authService
                net' (fst out)) as H2.
  cbv zeta in H2.
  assert (Hex : sent (fst (exec net' (ensureAccessToken authService) (fst out)))
                = (sent (fst out) ++ [token_request authService])%list).
  { rewrite ensureAccessToken_renews.
    - apply getAccessToken_sends_exchange.
    - unfold Loop.no_valid_credential. rewrite Htok. exact I. }
  destruct (snd (exec net' (ensureAccessToken authService) (fst out))).
  - destruct H2 as [Hs _]. rewrite Hs, Hex, <- app_assoc.
    eexists. reflexivity.
  - destruct H2 as (_ & Hs & _). rewrite Hs, Hex. eexists. reflexivity.
Qed.

Lemma unauthorized_handler_call_then_retry_witness :
  let net := Cases.rejecting Scenario.unauthorized 1000 in
  let out := exec net (createPayout [] Scenario.service) Scenario.warm in
  snd out
  = Raised (Error ("Failed to create payout: " ++
      "Authentication failed with PayPal API. Token may have expired."))
  /\ tokenData (fst out) = None
  /\ forall net', exists rest,
       sent (fst (exec net' (createPayout [] Scenario.service) (fst out)))
       = (sent (fst out) ++ token_request Scenario.service :: rest)%list.
Proof.
  intro net.
  apply (unauthorized_handler_call_then_retry createPayout
           "/v1/payments/payouts" "Failed to create payout: " []
           Scenario.service net Scenario.warm "Request failed" None
           {| status := 401; response_headers := [];
              data := JObj [("error", JStr "invalid_token")] |} "A").
  - do 4 right. left. reflexivity.
  - intros n q. reflexivity.
  - reflexivity.
  - reflexivity.
Defined.

(** X12 -- [captureOrder] sends the payment source and nothing else: the
    body of its POST has no property but [payment_source], which is the
    argument of that name when it is truthy and is left out otherwise; the
    order identifier goes into the path, and any other argument is
    dropped. *)
Theorem captureOrder_sends_payment_source_only
  (args : list (string * json)) (authService : PayPalAuthService)
  (net : network) (w : world) :
  let out := exec net (captureOrder args authService) w in
  let auth := exec net (ensureAccessToken authService) w in
  match snd auth with
  | Resolved token =>
      exists q fields,
        sent (fst out) = (sent (fst auth) ++ [q])%list
        /\ url q = "/v2/checkout/orders/"
                   ++ template (lookup "order_id" args) ++ "/capture"
        /\ meth q = POST
        /\ body q = Some (JObj fields)
        /\ (forall k, k <> "payment_source" -> lookup k fields = None)
        /\ lookup "payment_source" fields
           = (if truthy_opt (lookup "payment_source" args)
              then lookup "payment_source" args
              else None)
  | Raised e =>
      sent (fst out) = sent (fst auth) /\ snd out = Raised e
  end.
Proof.
  intros out auth. unfold out, captureOrder. cbn [logger bind exec].
  match goal with
  | |- context [exec net ?p (add_log ?l2 (add_log ?l1 w))] =>
      pose proof (guarded_call authService net (add_log l2 (add_log l1 w)) w
                    POST
                    ("/v2/checkout/orders/"
                     ++ template (lookup "order_id" args) ++ "/capture")
                    (Some (capture_body (lookup "payment_source" args)))
                    ("Error capturing order "
                     ++ template (lookup "order_id" args) ++ ":")
                    "Failed to capture order: "
                    (conj eq_refl eq_refl)) as H
  end.
  cbv zeta in H. fold auth in H.
  destruct (snd auth) as [token | e].
  - destruct H as [Hs _].
    unfold capture_body in Hs |- *.
    destruct (lookup "payment_source" args) as [v |]; cbn [truthy_opt] in *.
    + destruct (truthy v).
      * exists (client_request
                  {| client_baseURL := baseUrl authService;
                     client_headers :=
                       [("Authorization", "Bearer " ++ token);
                        ("Content-Type", "application/json")] |}
                  POST
                  ("/v2/checkout/orders/"
                   ++ template (lookup "order_id" args) ++ "/capture")
                  (Some (JObj [("payment_source", v)]))),
               [("payment_source", v)].
        split; [exact Hs|]. repeat split.
        intros k Hk. cbn.
        destruct (String.eqb_spec k "payment_source"); [contradiction|].
        reflexivity.
      * eexists; exists []. split; [exact Hs|]. repeat split.
    + eexists; exists []. split; [exact Hs|]. repeat split.
  - destruct H as (Hr & Hs & _). split; assumption.
Qed.

(** The requests a call through [getAuthenticatedClient] leaves behind are
    those of [ensureAccessToken]. *)
Lemma after_client_throw {B : Type} (this : PayPalAuthService)
  (net : network) (w0 w : world) (x : thrown) :
  same_state w0 w ->
  let out := exec net (bind (getAuthenticatedClient this)
                         (fun _ => @Throw B x)) w0 in
  let auth := exec net (ensureAccessToken this) w in
  sent (fst out) = sent (fst auth)
  /\ snd out = match snd auth with
               | Resolved _ => Raised x
               | Raised e => Raised e
               end.
Proof.
  intros Hsame out auth. unfold out, auth.
  destruct (exec_ignores_logs net (ensureAccessToken this) w0 w Hsame)
    as [[_ Hs] Hr].
  unfold getAuthenticatedClient. rewrite !exec_bind.
  destruct (exec net (ensureAccessToken this) w0) as [w1 r1].
  destruct (exec net (ensureAccessToken this) w) as [w1' r1'].
  cbn [fst snd] in *. subst r1'.
  destruct r1; cbn; split; auto.
Qed.

Lemma ensured_requests_stay_in_environment (this : PayPalAuthService)
  (net : network) (w : world) (q : request) :
  In q (sent (fst (exec net (ensureAccessToken this) w))) ->
  In q (sent w) \/ baseURL q = Some (baseUrl this).
Proof.
  pose proof (ensureAccessToken_ends this net w) as H. cbv zeta in H.
  destruct (snd (exec net (ensureAccessToken this) w));
    [destruct H as [_ [-> | ->]] | destruct H as [_ ->]];
    intro Hin; try (left; exact Hin);
    apply in_app_or in Hin as [Hin | [<- | []]];
    try (left; exact Hin); right; reflexivity.
Qed.

Lemma guarded_call_stays_in_environment (this : PayPalAuthService)
  (net : network) (w0 w : world) (m : method) (path : string)
  (payload : option json) (failed prefix : string) (q : request) :
  same_state w0 w ->
  In q (sent (fst (exec net
      (bind (getAuthenticatedClient this)
         (fun client =>
            try_catch
              (bind (client_call client m path payload)
                 (fun response => Ret (data response)))
              (fun error =>
                 bind (logger LError failed [LThrown error])
                   (fun _ => Throw (Error (prefix ++ describe error))))))
      w0))) ->
  In q (sent w) \/ baseURL q = Some (baseUrl this).
Proof.
  intros Hsame Hin.
  pose proof (guarded_call this net w0 w m path payload failed prefix Hsame)
    as H.
  cbv zeta in H.
  destruct (snd (exec net (ensureAccessToken this) w)) eqn:E.
  - destruct H as [Hs _]. rewrite Hs in Hin.
    apply in_app_or in Hin as [Hin | [<- | []]].
    + eapply ensured_requests_stay_in_environment. exact Hin.
    + right. reflexivity.
  - destruct H as (_ & Hs & _). rewrite Hs in Hin.
    eapply ensured_requests_stay_in_environment. exact Hin.
Qed.

(** X13 -- a service never leaves its environment: every request that one
    of the ten handlers working through an authenticated client puts on
    the wire, the credential exchange included, is addressed under the
    base endpoint the service was built with. *)
Theorem authenticated_handlers_stay_in_environment (type_error : thrown)
  (h : list (string * json) -> PayPalAuthService -> proc json)
  (args : list (string * json)) (authService : PayPalAuthService)
  (net : network) (w : world) (q : request) :
  In h (authenticated_handlers type_error) ->
  In q (sent (fst (exec net (h args authService) w))) ->
  In q (sent w) \/ baseURL q = Some (baseUrl authService).
Proof.
  intros Hh. cbn in Hh.
  repeat (destruct Hh as [<- | Hh]); try destruct Hh;
    unfold createPaymentToken, createOrder, createPayment, createProduct,
      createPayout, createWebProfile, forward, captureOrder,
      createSubscription, getWebProfiles, createInvoice;
    cbn [logger bind exec]; intro Hin.
  1-6, 8-10:
    (eapply guarded_call_stays_in_environment; [|exact Hin];
     split; reflexivity).
  destruct (invoiceData args).
  - eapply guarded_call_stays_in_environment; [|exact Hin]. split; reflexivity.
  - match type of Hin with
    | context [exec net _ ?w0] =>
        destruct (after_client_throw (B := json) authService net w0 w
                    type_error (conj eq_refl eq_refl)) as [Hs _]
    end.
    rewrite Hs in Hin.
    eapply ensured_requests_stay_in_environment. exact Hin.
Qed.

Lemma authenticated_handlers_stay_in_environment_witness :
  let net := Cases.answering JNull 1000 in
  let q := token_request Scenario.service in
  In q Scenario.cold.(sent)
  \/ baseURL q = Some (baseUrl Scenario.service).
Proof.
  intros net q.
  apply (authenticated_handlers_stay_in_environment Cases.type_error
           getWebProfiles [] Scenario.service net Scenario.cold q).
  - do 9 right. left. reflexivity.
  - left. reflexivity.
Defined.

(** What can be read from the literal made for an invoice item. *)
Lemma lookup_item_literal (a b c d e : option json) (k : string) :
  lookup k (literal [("name", a); ("quantity", b); ("unit_amount", c);
                     ("description", d); ("tax", e)])
  = if String.eqb k "name" then a
    else if String.eqb k "quantity" then b
    else if String.eqb k "unit_amount" then c
    else if String.eqb k "description" then d
    else if String.eqb k "tax" then e
    else None.
Proof.
  destruct a, b, c, d, e; cbn [literal lookup];
    repeat match goal with
           | |- context [String.eqb k ?s] =>
               destruct (String.eqb_spec k s) as [-> | ?]; cbn
           end;
    reflexivity.
Qed.

Lemma invoice_item_keeps_five (item x : json) (k : string) :
  invoice_item item = Some x ->
  get_prop x k
  = if existsb (String.eqb k) invoice_item_keys then get_prop item k
    else None.
Proof.
  intro H.
  assert (Hx : x = JObj (literal
                 [("name", get_prop item "name");
                  ("quantity", get_prop item "quantity");
                  ("unit_amount", get_prop item "unit_amount");
                  ("description", get_prop item "description");
                  ("tax", get_prop item "tax")])).
  { destruct item; cbn in H; try discriminate; injection H as <-;
      reflexivity. }
  rewrite Hx. cbn [get_prop]. rewrite lookup_item_literal.
  cbn [existsb invoice_item_keys].
  repeat match goal with
         | |- context [String.eqb k ?s] =>
             destruct (String.eqb_spec k s) as [-> | ?]; cbn [orb]
         end;
    reflexivity.
Qed.

Lemma map_items_without_null (items : list json) :
  ~ In JNull items ->
  exists mapped,
    map_items items = Some mapped
    /\ List.length mapped = List.length items
    /\ forall i item,
         nth_error items i = Some item ->
         exists x, nth_error mapped i = Some x /\ invoice_item item = Some x.
Proof.
  induction items as [| item items IH]; intro Hnull.
  - exists []. repeat split. intros [|i] item H; discriminate H.
  - destruct IH as (mapped & Hm & Hl & Hn).
    { intro H. apply Hnull. right. exact H. }
    destruct (invoice_item item) as [x |] eqn:Hx.
    + exists (x :: mapped). cbn [map_items]. rewrite Hx, Hm.
      split; [reflexivity|]. split; [cbn; rewrite Hl; reflexivity|].
      intros [| i] it H; cbn in H.
      * injection H as <-. exists x. split; [reflexivity | exact Hx].
      * apply Hn. exact H.
    + exfalso. apply Hnull. left.
      destruct item; cbn in Hx; try discriminate. reflexivity.
Qed.

Lemma map_items_with_null (items : list json) :
  In JNull items -> map_items items = None.
Proof.
  induction items as [| item items IH]; intro H; [destruct H|].
  destruct H as [H | H]; cbn [map_items].
  - subst item. reflexivity.
  - rewrite (IH H). destruct (invoice_item item); reflexivity.
Qed.

(** X14 -- the invoice [createInvoice] posts: the invoicer is always
    "Business Owner", the recipient is the [recipient_email] argument, and
    the items are those of the arguments, as many and in their order, each
    reduced to its [name], [quantity], [unit_amount], [description] and
    [tax] (any other property of an item is dropped). *)
Theorem createInvoice_posts_transformed_invoice (type_error : thrown)
  (args : list (string * json)) (items : list json)
  (authService : PayPalAuthService) (net : network) (w : world)
  (token : string) :
  lookup "items" args = Some (JArr items) ->
  ~ In JNull items ->
  snd (exec net (ensureAccessToken authService) w) = Resolved token ->
  let out := exec net (createInvoice type_error args authService) w in
  let auth := exec net (ensureAccessToken authService) w in
  exists q b mapped,
    sent (fst out) = (sent (fst auth) ++ [q])%list
    /\ target q = baseUrl authService ++ "/v2/invoicing/invoices"
    /\ meth q = POST
    /\ body q = Some b
    /\ at_path b [Key "invoicer"; Key "name"]
       = Some (JObj [("given_name", JStr "Business");
                     ("surname", JStr "Owner")])
    /\ at_path b [Key "primary_recipients"; Idx 0; Key "billing_info";
                  Key "email_address"]
       = lookup "recipient_email" args
    /\ at_path b [Key "items"] = Some (JArr mapped)
    /\ List.length mapped = List.length items
    /\ forall i item,
         nth_error items i = Some item ->
         exists x,
           nth_error mapped i = Some x
           /\ forall k,
                get_prop x k
                = if existsb (String.eqb k) invoice_item_keys
                  then get_prop item k
                  else None.
Proof.
  intros Hitems Hnull Hauth out auth.
  destruct (map_items_without_null items Hnull) as (mapped & Hm & Hl & Hn).
  unfold out, createInvoice. cbn [logger bind exec].
  unfold invoiceData. rewrite Hitems, Hm.
  match goal with
  | |- context [exec net (bind _ (fun client =>
                   try_catch (bind (client_call client ?m ?p ?b) _) _))
                  (add_log ?l2 (add_log ?l1 w))] =>
      pose proof (guarded_call authService net (add_log l2 (add_log l1 w)) w
                    m p b "Error creating invoice:"
                    "Failed to create invoice: "
                    (conj eq_refl eq_refl)) as H
  end.
  cbv zeta in H. rewrite Hauth in H. destruct H as [Hs _].
  eexists. eexists. exists mapped.
  split; [exact Hs|]. split; [reflexivity|]. split; [reflexivity|].
  split; [reflexivity|]. split; [reflexivity|].
  split.
  { cbn. destruct (lookup "recipient_email" args); reflexivity. }
  split; [reflexivity|]. split; [exact Hl|].
  intros i item Hi. destruct (Hn i item Hi) as (x & Hx & Hinv).
  exists x. split; [exact Hx|]. intro k.
  apply invoice_item_keeps_five. exact Hinv.
Qed.

Lemma createInvoice_posts_transformed_invoice_witness :
  let net := Cases.answering JNull 1000 in
  let items :=
    [JObj [("name", JStr "Widget");
           ("quantity", JStr "2");
           ("unit_amount", JObj [("currency_code", JStr "USD");
                                 ("value", JStr "5.00")]);
           ("sku", JStr "W-1")]] in
  let out := exec net (createInvoice Cases.type_error Cases.invoice_args
                         Scenario.service) Scenario.cold in
  let auth := exec net (ensureAccessToken Scenario.service) Scenario.cold in
  exists q b mapped,
    sent (fst out) = (sent (fst auth) ++ [q])%list
    /\ target q = baseUrl Scenario.service ++ "/v2/invoicing/invoices"
    /\ meth q = POST
    /\ body q = Some b
    /\ at_path b [Key "invoicer"; Key "name"]
       = Some (JObj [("given_name", JStr "Business");
                     ("surname", JStr "Owner")])
    /\ at_path b [Key "primary_recipients"; Idx 0; Key "billing_info";
                  Key "email_address"]
       = lookup "recipient_email" Cases.invoice_args
    /\ at_path b [Key "items"] = Some (JArr mapped)
    /\ List.length mapped = List.length items
    /\ forall i item,
         nth_error items i = Some item ->
         exists x,
           nth_error mapped i = Some x
           /\ forall k,
                get_prop x k
                = if existsb (String.eqb k) invoice_item_keys
                  then get_prop item k
                  else None.
Proof.
  intros net items.
  apply (createInvoice_posts_transformed_invoice Cases.type_error
           Cases.invoice_args items Scenario.service net Scenario.cold "B").
  - reflexivity.
  - intros [H | []]. discriminate H.
  - reflexivity.
Defined.

(** X15 -- [createInvoice] builds the invoice after it has ensured the
    credential and outside its [try]: when [items] is missing or is not an
    array, or when one of the items is [null], the engine's [TypeError]
    reaches the caller as it is, without the handler's own text, and the
    invoice is never posted, though the credential exchange may have been
    sent. *)
Theorem createInvoice_without_items_raises_type_error (type_error : thrown)
  (args : list (string * json)) (authService : PayPalAuthService)
  (net : network) (w : world) :
  match lookup "items" args with
  | Some (JArr items) => In JNull items
  | _ => True
  end ->
  let out := exec net (createInvoice type_error args authService) w in
  let auth := exec net (ensureAccessToken authService) w in
  sent (fst out) = sent (fst auth)
  /\ snd out = match snd auth with
               | Resolved _ => Raised type_error
               | Raised e => Raised e
               end.
Proof.
  intros Hitems out auth.
  assert (Hnone : invoiceData args = None).
  { unfold invoiceData.
    destruct (lookup "items" args) as [[| | | | items |] |]; try reflexivity.
    rewrite (map_items_with_null items Hitems). reflexivity. }
  unfold out, createInvoice. cbn [logger bind exec]. rewrite Hnone.
  apply after_client_throw. split; reflexivity.
Qed.

Lemma createInvoice_without_items_raises_type_error_witness :
  let net := Cases.answering JNull 1000 in
  let args := [("invoice_number", JStr "INV-1")] in
  let out := exec net (createInvoice Cases.type_error args Scenario.service)
               Scenario.cold in
  let auth := exec net (ensureAccessToken Scenario.service) Scenario.cold in
  sent (fst out) = sent (fst auth)
  /\ snd out = match snd auth with
               | Resolved _ => Raised Cases.type_error
               | Raised e => Raised e
               end.
Proof.
  intros net args.
  apply (createInvoice_without_items_raises_type_error Cases.type_error
           args Scenario.service net Scenario.cold).
  exact I.
Defined.

(** X23 -- [getUserInfo] works outside the service: whatever the provider
    answers, a 401 included, the cached credential is left alone and
    exactly one request is sent; an answer is returned as it is, and a
    failure is raised as a new error that quotes the message of the
    failure itself, the response interceptor of the service not being
    involved. *)
Theorem getUserInfo_bypasses_the_service (args : list (string * json))
  (authService : PayPalAuthService) (net : network) (w : world) :
  let out := exec net (getUserInfo args authService) w in
  exists q,
    sent (fst out) = (sent w ++ [q])%list
    /\ tokenData (fst out) = tokenData w
    /\ snd out = match api net (List.length (sent w)) q with
                 | Fulfilled r => Resolved (data r)
                 | Rejected x =>
                     Raised (Error ("Failed to get user info: "
                                    ++ message_of x))
                 end.
Proof.
  intro out. unfold out, getUserInfo.
  cbn [logger bind exec try_catch add_log sent List.length].
  eexists. split; [|split].
  - match goal with
    | |- context [api net ?n ?q] => destruct (api net n q)
    end; reflexivity.
  - match goal with
    | |- context [api net ?n ?q] => destruct (api net n q)
    end; reflexivity.
  - match goal with
    | |- context [api net ?n ?q] => destruct (api net n q)
    end; reflexivity.
Qed.

(** X24 -- [getWebProfiles] reads: once the credential is ensured it sends
    exactly one more request, a GET without a body of the web profiles
    path under the base endpoint of the service, bearing the ensured
    token, whatever arguments it was given. *)
Theorem getWebProfiles_sends_a_plain_get (args : list (string * json))
  (authService : PayPalAuthService) (net : network) (w : world)
  (token : string) :
  snd (exec net (ensureAccessToken authService) w) = Resolved token ->
  let out := exec net (getWebProfiles args authService) w in
  let auth := exec net (ensureAccessToken authService) w in
  exists q,
    sent (fst out) = (sent (fst auth) ++ [q])%list
    /\ target q
       = baseUrl authService ++ "/v1/payment-experience/web-profiles"
    /\ meth q = GET
    /\ body q = None
    /\ header "Authorization" q = Some ("Bearer " ++ token).
Proof.
  intros Hauth out auth. unfold out, getWebProfiles.
  cbn [logger bind exec].
  match goal with
  | |- context [exec net _ (add_log ?l1 w)] =>
      pose proof (guarded_call authService net (add_log l1 w) w GET
                    "/v1/payment-experience/web-profiles" None
                    "Error getting web profiles:"
                    "Failed to get web profiles: "
                    (conj eq_refl eq_refl)) as H
  end.
  cbv zeta in H. rewrite Hauth in H. destruct H as [Hs _].
  eexists. split; [exact Hs|]. repeat split.
Qed.

Lemma getWebProfiles_sends_a_plain_get_witness :
  let net := Cases.answering (JObj []) 1000 in
  let out := exec net (getWebProfiles [("ignored", JBool true)]
                         Scenario.service) Scenario.warm in
  let auth := exec net (ensureAccessToken Scenario.service) Scenario.warm in
  exists q,
    sent (fst out) = (sent (fst auth) ++ [q])%list
    /\ target q
       = baseUrl Scenario.service ++ "/v1/payment-experience/web-profiles"
    /\ meth q = GET
    /\ body q = None
    /\ header "Authorization" q = Some ("Bearer " ++ "A").
Proof.
  intro net.
  apply (getWebProfiles_sends_a_plain_get [("ignored", JBool true)]
           Scenario.service net Scenario.warm "A").
  reflexivity.
Defined.

End HandlerFacts.

(* ------------------------------------------------------------------ *)
(** ** More about concurrent calls *)

Module LoopMore.

Import Auth Loop LoopFacts.

(** A call that finds a valid credential settles at once. *)
Lemma segment_ensureAccessToken_fresh (this : PayPalAuthService) (now : Z)
  (w : world) (t : TokenResponse) (e : Z) :
  tokenData w = Some t ->
  expiration t = Some e ->
  0 <= now < e - 300 * 1000 ->
  segment now (ensureAccessToken this) w
  = (w, Done (Resolved (access_token t))).
Proof.
  intros Ht He [Hpos Hlt]. unfold ensureAccessToken. cbn [segment bind].
  rewrite Ht, He.
  destruct (Z.eqb_spec e 0) as [E | _]; [lia|]. cbn [segment bind].
  unfold tokenExpiryBuffer.
  destruct (Z.ltb_spec now (e - 300 * 1000)); [reflexivity | lia].
Qed.

Lemma run_fresh_invocations (this : PayPalAuthService) (t : TokenResponse)
  (e : Z) (starts : list Z) :
  forall s : system string,
    tokenData (shared s) = Some t ->
    expiration t = Some e ->
    (forall now, In now starts -> 0 <= now < e - 300 * 1000) ->
    run (ensureAccessToken this) (map Invoke starts) s
    = {| shared := shared s;
         calls := calls s
                  ++ repeat (Done (Resolved (access_token t)))
                       (List.length starts) |}.
Proof.
  induction starts as [| now starts IH]; intros s Ht He H.
  - cbn. rewrite app_nil_r. destruct s. reflexivity.
  - rewrite map_cons, run_cons. cbn [step].
    rewrite (segment_ensureAccessToken_fresh this now (shared s) t e Ht He)
      by (apply H; left; reflexivity).
    rewrite IH; [| exact Ht | exact He
                 | intros n Hn; apply H; right; exact Hn].
    cbn. rewrite <- app_assoc. reflexivity.
Qed.

(** X16 -- with a valid credential cached, any number of calls made at
    once are all answered from the cache: each resolves to the cached
    token, no request is sent, and the service is left as it was. *)
Theorem concurrent_calls_share_cached_credential (this : PayPalAuthService)
  (w : world) (t : TokenResponse) (e : Z) (starts : list Z) :
  tokenData w = Some t ->
  expiration t = Some e ->
  (forall now, In now starts -> 0 <= now < e - 300 * 1000) ->
  run (ensureAccessToken this) (map Invoke starts) (start w)
  = {| shared := w;
       calls := repeat (Done (Resolved (access_token t)))
                  (List.length starts) |}.
Proof.
  intros Ht He H.
  apply (run_fresh_invocations this t e starts (start w) Ht He H).
Qed.

Lemma concurrent_calls_share_cached_credential_witness :
  run (ensureAccessToken Scenario.service) (map Invoke [1000; 1000; 2000])
    (start Scenario.warm)
  = {| shared := Scenario.warm;
       calls := repeat
                  (Done (Resolved
                     (access_token
                        (with_expiration (Scenario.issued "A" 32400)
                           32400000))))
                  (List.length [1000; 1000; 2000]) |}.
Proof.
  apply (concurrent_calls_share_cached_credential Scenario.service
           Scenario.warm
           (with_expiration (Scenario.issued "A" 32400) 32400000)
           32400000 [1000; 1000; 2000]).
  - reflexivity.
  - reflexivity.
  - intros now [<- | [<- | [<- | []]]]; lia.
Defined.

(** X17 -- calls made one after the other share one exchange: when the
    first call has been answered at time [t1], every call made later while
    the clock reads less than [t1 + (expires_in - 300) * 1000] resolves to
    the token of that answer, and the one exchange of the first call is
    the only request ever sent. *)
Theorem later_calls_reuse_the_answer (this : PayPalAuthService) (w : world)
  (t0 t1 : Z) (r : response TokenResponse) (later : list Z) :
  no_valid_credential w t0 ->
  (forall now, In now later ->
     0 <= now < t1 + (expires_in (data r) - 300) * 1000) ->
  let s := run (ensureAccessToken this)
             (Invoke t0 :: TokenArrives 0 t1 (Fulfilled r)
              :: map Invoke later) (start w) in
  sent (shared s) = (sent w ++ [token_request this])%list
  /\ calls s = repeat (Done (Resolved (access_token (data r))))
                 (S (List.length later)).
Proof.
  intros Hstale Hlater s. unfold s.
  rewrite run_cons. cbn [step start shared calls].
  rewrite (segment_ensureAccessToken_stale this t0 w Hstale).
  rewrite run_cons.
  change (TokenArrives 0 t1 (Fulfilled r))
    with (deliver {| call := 0; at_time := t1; reply := r |}).
  rewrite step_deliver_waiting by reflexivity.
  rewrite (run_fresh_invocations this
             (credential_of {| call := 0; at_time := t1; reply := r |})
             (t1 + expires_in (data r) * 1000)).
  - cbn. split; reflexivity.
  - reflexivity.
  - reflexivity.
  - intros now Hn. specialize (Hlater now Hn). lia.
Qed.

Lemma later_calls_reuse_the_answer_witness :
  let r := Scenario.ok (Scenario.issued "A" 32400) in
  let s := run (ensureAccessToken Scenario.service)
             (Invoke 0 :: TokenArrives 0 10 (Fulfilled r)
              :: map Invoke [20; 30]) (start Scenario.cold) in
  sent (shared s)
  = (sent Scenario.cold ++ [token_request Scenario.service])%list
  /\ calls s = repeat (Done (Resolved (access_token (data r))))
                 (S (List.length [20; 30])).
Proof.
  intro r.
  apply (later_calls_reuse_the_answer Scenario.service Scenario.cold 0 10 r
           [20; 30]).
  - exact I.
  - intros now [<- | [<- | []]]; cbn; lia.
Defined.

(** X18 -- when the exchange of a waiting call fails, that call settles
    with the fixed authentication error, the other calls are not touched
    and nothing is sent; the cached credential stays, unless the answer
    had status 401, in which case the cache is emptied, whichever call had
    filled it. *)
Theorem failed_exchange_in_flight (this : PayPalAuthService)
  (s : system string) (i : nat) (now : Z) (x : thrown) :
  nth_error (calls s) i = Some (OnToken (exchange_continuation this)) ->
  let s' := step (ensureAccessToken this) s (TokenArrives i now (Rejected x)) in
  nth_error (calls s') i
  = Some (Done (Raised (Error "Failed to authenticate with PayPal API")))
  /\ (forall j, j <> i -> nth_error (calls s') j = nth_error (calls s) j)
  /\ sent (shared s') = sent (shared s)
  /\ tokenData (shared s')
     = match x with
       | AxiosError _ _ (Some r) =>
           if status r =? 401 then None else tokenData (shared s)
       | _ => tokenData (shared s)
       end.
Proof.
  intros Hwait s'. unfold s'. cbn [step]. rewrite Hwait.
  assert (Hseg : exists w',
            segment now (exchange_continuation this (Rejected x)) (shared s)
            = (w', Done (Raised
                 (Error "Failed to authenticate with PayPal API")))
            /\ sent w' = sent (shared s)
            /\ tokenData w'
               = match x with
                 | AxiosError _ _ (Some r) =>
                     if status r =? 401 then None else tokenData (shared s)
                 | _ => tokenData (shared s)
                 end).
  { destruct x as [msg cfg [r|] | msg]; cbn.
    - destruct (status r =? 401); cbn; [eauto|].
      destruct (truthy (data r)
                && truthy_opt (get_prop (data r) "error_description"))%bool;
        cbn; [eauto|].
      destruct (truthy (data r)
                && truthy_opt (get_prop (data r) "message"))%bool;
        cbn; eauto.
    - eauto.
    - eauto. }
  destruct Hseg as (w' & -> & Hs & Ht). cbn [shared calls].
  split; [eapply nth_error_replace_same; exact Hwait|].
  split; [intros j Hj; apply nth_error_replace_other; congruence|].
  split; assumption.
Qed.

Lemma failed_exchange_in_flight_witness :
  let s := run (ensureAccessToken Scenario.service)
             [Invoke 0; Invoke 0;
              TokenArrives 0 10
                (Fulfilled (Scenario.ok (Scenario.issued "A" 32400)))]
             (start Scenario.cold) in
  let s' := step (ensureAccessToken Scenario.service) s
              (TokenArrives 1 20 (Rejected Scenario.unauthorized)) in
  nth_error (calls s') 1
  = Some (Done (Raised (Error "Failed to authenticate with PayPal API")))
  /\ (forall j, j <> 1%nat -> nth_error (calls s') j = nth_error (calls s) j)
  /\ sent (shared s') = sent (shared s)
  /\ tokenData (shared s')
     = match Scenario.unauthorized with
       | AxiosError _ _ (Some r) =>
           if status r =? 401 then None else tokenData (shared s)
       | _ => tokenData (shared s)
       end.
Proof.
  intro s.
  apply (failed_exchange_in_flight Scenario.service s 1 20
           Scenario.unauthorized).
  reflexivity.
Defined.

End LoopMore.

(* ------------------------------------------------------------------ *)
(** ** Facts about the schema patterns *)

Module SchemaFacts.

Import Schemas.

Lemma append_empty (s : string) : s ++ "" = s.
Proof. induction s as [| c s IH]; cbn; [|rewrite IH]; reflexivity. Qed.

Lemma append_assoc (a b c : string) : (a ++ b) ++ c = a ++ b ++ c.
Proof. induction a as [| x a' IH]; cbn; [|rewrite IH]; reflexivity. Qed.

Lemma length_append (a b : string) :
  String.length (a ++ b) = (String.length a + String.length b)%nat.
Proof. induction a as [| x a' IH]; cbn; [|rewrite IH]; reflexivity. Qed.

Lemma all_digits_append (a b : string) :
  all_digits (a ++ b) = (all_digits a && all_digits b)%bool.
Proof.
  induction a as [| x a' IH]; cbn; [reflexivity|].
  rewrite IH, andb_assoc. reflexivity.
Qed.

Lemma test_Empty (s : string) : test Empty s = false.
Proof. induction s as [| c s IH]; cbn; auto. Qed.

Lemma test_Eps (s : string) : test Eps s = true <-> s = "".
Proof.
  destruct s; cbn; [tauto|].
  rewrite test_Empty. split; discriminate.
Qed.

Lemma test_Alt (s : string) :
  forall a b, test (Alt a b) s = (test a s || test b s)%bool.
Proof. induction s as [| c s IH]; intros a b; cbn; auto. Qed.

(** A concatenation matches when the text splits in two parts that match
    its two sides. *)
Lemma test_Cat (s : string) :
  forall a b,
    test (Cat a b) s = true
    <-> exists s1 s2, s = s1 ++ s2 /\ test a s1 = true /\ test b s2 = true.
Proof.
  induction s as [| c s IH]; intros a b.
  - cbn [test nullable]. rewrite andb_true_iff. split.
    + intros [Ha Hb]. exists "", "". repeat split; assumption.
    + intros (s1 & s2 & E & Ha & Hb).
      destruct s1; [|discriminate E]. destruct s2; [|discriminate E].
      split; assumption.
  - cbn [test deriv]. split.
    + intro H. destruct (nullable a) eqn:Na.
      * rewrite test_Alt in H. apply orb_true_iff in H as [H | H].
        -- apply IH in H as (s1 & s2 & -> & Ha & Hb).
           exists (String c s1), s2. repeat split; assumption.
        -- exists "", (String c s). repeat split; assumption.
      * apply IH in H as (s1 & s2 & -> & Ha & Hb).
        exists (String c s1), s2. repeat split; assumption.
    + intros (s1 & s2 & E & Ha & Hb). destruct s1 as [| c1 s1].
      * cbn in E. subst s2. cbn in Ha. rewrite Ha, test_Alt.
        apply orb_true_iff. right. exact Hb.
      * cbn in E. injection E as <- ->. cbn [test] in Ha.
        assert (H : test (Cat (deriv a c) b) (s1 ++ s2) = true).
        { apply IH. exists s1, s2. repeat split; assumption. }
        destruct (nullable a); [|exact H].
        rewrite test_Alt, H. reflexivity.
Qed.

Lemma test_Chr (a : ascii) (s : string) :
  test (Chr a) s = true <-> s = String a "".
Proof.
  destruct s as [| c s]; cbn; [split; discriminate|].
  destruct (Ascii.eqb_spec a c) as [-> | N].
  - rewrite test_Eps. split; [intros ->; reflexivity|].
    intro E. injection E as ->. reflexivity.
  - rewrite test_Empty. split; [discriminate|].
    intro E. injection E as -> _. contradiction.
Qed.

Lemma test_Range (lo hi : ascii) (s : string) :
  test (Range lo hi) s = true
  <-> exists c, s = String c "" /\ in_range lo hi c = true.
Proof.
  destruct s as [| c s]; cbn.
  - split; [discriminate | intros (c & E & _); discriminate E].
  - destruct (in_range lo hi c) eqn:R.
    + rewrite test_Eps. split.
      * intros ->. exists c. split; [reflexivity | exact R].
      * intros (c' & E & _). injection E as _ ->. reflexivity.
    + rewrite test_Empty. split; [discriminate|].
      intros (c' & E & R'). injection E as -> _. congruence.
Qed.

Lemma test_Cat_Eps (r : regex) (s : string) :
  test (Cat Eps r) s = test r s.
Proof.
  apply eq_true_iff_eq. rewrite test_Cat. split.
  - intros (s1 & s2 & -> & H1 & H2). apply test_Eps in H1. subst s1.
    exact H2.
  - intro H. exists "", s. repeat split. exact H.
Qed.

Lemma test_Cat_Empty (r : regex) (s : string) :
  test (Cat Empty r) s = false.
Proof.
  destruct (test (Cat Empty r) s) eqn:E; [|reflexivity].
  apply test_Cat in E as (s1 & s2 & _ & H & _).
  rewrite test_Empty in H. discriminate H.
Qed.

(** A bounded run of digits. *)
Lemma test_digits_between (s : string) :
  forall m n,
    test (Rep Digit m (Some n)) s
    = (all_digits s && Nat.leb m (String.length s)
       && Nat.leb (String.length s) n)%bool.
Proof.
  induction s as [| c s IH]; intros m n.
  - cbn. destruct m; cbn; reflexivity.
  - cbn [test deriv Digit all_digits String.length].
    destruct n as [| n].
    + rewrite test_Empty. cbn. rewrite !andb_false_r. reflexivity.
    + cbn [option_map]. fold (is_digit c). destruct (is_digit c).
      * rewrite test_Cat_Eps. fold Digit. rewrite IH. cbn [andb].
        destruct m; reflexivity.
      * apply test_Cat_Empty.
Qed.

(** An unbounded run of digits. *)
Lemma test_digits_from (s : string) :
  forall m,
    test (Rep Digit m None) s
    = (all_digits s && Nat.leb m (String.length s))%bool.
Proof.
  induction s as [| c s IH]; intro m.
  - cbn. destruct m; cbn; reflexivity.
  - cbn [test deriv Digit all_digits String.length option_map].
    fold (is_digit c). destruct (is_digit c).
    + rewrite test_Cat_Eps. fold Digit. rewrite IH. cbn [andb].
      destruct m; reflexivity.
    + apply test_Cat_Empty.
Qed.

Lemma test_Rep_none (r : regex) (s : string) :
  test (Rep r 0 (Some 0%nat)) s = true <-> s = "".
Proof.
  destruct s; cbn; [tauto|]. rewrite test_Empty. split; discriminate.
Qed.

(** An optional part. *)
Lemma test_opt (r : regex) (s : string) :
  test (opt r) s = true <-> s = "" \/ test r s = true.
Proof.
  destruct s as [| c s].
  - cbn. tauto.
  - unfold opt. cbn [test deriv option_map Nat.pred]. rewrite test_Cat.
    split.
    + intros (s1 & s2 & -> & H1 & H2). apply test_Rep_none in H2.
      subst s2. right. rewrite append_empty. exact H1.
    + intros [E | H]; [discriminate E|].
      exists s, "". rewrite append_empty. repeat split. exact H.
Qed.

Lemma in_range_bounds (lo hi c : ascii) :
  in_range lo hi c = true
  <-> (nat_of_ascii lo <= nat_of_ascii c <= nat_of_ascii hi)%nat.
Proof.
  unfold in_range. rewrite andb_true_iff, !Nat.leb_le. tauto.
Qed.

Lemma nonempty_length (s : string) :
  s <> "" <-> (1 <= String.length s)%nat.
Proof.
  destruct s; cbn; split; intro H; try lia; try congruence; discriminate.
Qed.

Lemma test_plus_digits (s : string) :
  test (plus Digit) s = true <-> s <> "" /\ all_digits s = true.
Proof.
  unfold plus. rewrite test_digits_from, andb_true_iff, Nat.leb_le.
  rewrite nonempty_length. tauto.
Qed.

Lemma test_star_digits (s : string) :
  test (star Digit) s = all_digits s.
Proof.
  unfold star. rewrite test_digits_from. cbn. apply andb_true_r.
Qed.

(** X19 -- the card number and the security code are checked for their
    length and for being digits, and for nothing else: a card number
    passes exactly when it is made of 13 to 19 decimal digits, a security
    code (or [cvv2]) exactly when it is made of 3 or 4. *)
Theorem digit_runs_are_length_checks (s : string) :
  (test card_number s = true
   <-> all_digits s = true /\ (13 <= String.length s <= 19)%nat)
  /\ (test security_code s = true
      <-> all_digits s = true /\ (3 <= String.length s <= 4)%nat).
Proof.
  unfold card_number, security_code. rewrite !test_digits_between.
  rewrite !andb_true_iff, !Nat.leb_le. tauto.
Qed.

(** X20 -- the value of an amount passes exactly when it is a non-empty
    run of digits, or such a run followed by a dot and by any run of
    digits, the empty one included (so ["10."] passes, and so does any
    number of decimals); a sign, a leading dot or a second dot never
    pass. *)
Theorem amount_value_shape (s : string) :
  test amount_value s = true
  <-> (s <> "" /\ all_digits s = true)
      \/ exists a b,
           a <> "" /\ all_digits a = true /\ all_digits b = true
           /\ s = a ++ "." ++ b.
Proof.
  unfold amount_value. rewrite test_Cat. split.
  - intros (s1 & s2 & -> & H1 & H2).
    apply test_plus_digits in H1 as [Hne Hd1].
    apply test_Cat in H2 as (s3 & s4 & -> & H3 & H4).
    rewrite test_star_digits in H4.
    apply test_opt in H3 as [-> | H3].
    + left. cbn [append]. split.
      * destruct s1; [congruence | discriminate].
      * rewrite all_digits_append, Hd1, H4. reflexivity.
    + apply test_Chr in H3. subst s3. right. exists s1, s4.
      repeat split; assumption.
  - intros [[Hne Hd] | (a & b & Hne & Ha & Hb & ->)].
    + exists s, "". rewrite append_empty. split; [reflexivity|].
      split; [apply test_plus_digits; split; assumption|].
      apply test_Cat. exists "", "". repeat split.
    + exists a, ("." ++ b). split; [reflexivity|].
      split; [apply test_plus_digits; split; assumption|].
      apply test_Cat. exists ".", b. split; [reflexivity|].
      split; [apply test_opt; right; reflexivity|].
      rewrite test_star_digits. exact Hb.
Qed.

(** X21 -- the pattern of a tax percent is the stricter of the two
    decimal patterns: whatever passes as a percent passes as the value of
    an amount, but not the other way round, a number ending in a dot
    being an amount and not a percent. *)
Theorem tax_percent_is_stricter_than_amount_value :
  (forall s, test tax_percent s = true -> test amount_value s = true)
  /\ (forall a, a <> "" -> all_digits a = true ->
                test amount_value (a ++ ".") = true
                /\ test tax_percent (a ++ ".") = false).
Proof.
  split.
  - intros s H. unfold tax_percent in H.
    apply test_Cat in H as (s1 & s2 & -> & H1 & H2).
    unfold amount_value. apply test_Cat. exists s1, s2.
    split; [reflexivity|]. split; [exact H1|].
    apply test_opt in H2 as [-> | H2].
    + apply test_Cat. exists "", "". repeat split.
    + apply test_Cat in H2 as (s3 & s4 & -> & H3 & H4).
      apply test_Cat. exists s3, s4. split; [reflexivity|].
      split; [apply test_opt; right; exact H3|].
      apply test_plus_digits in H4 as [_ H4].
      rewrite test_star_digits. exact H4.
  - intros a Hne Ha. split.
    + unfold amount_value. apply test_Cat. exists a, ".".
      split; [reflexivity|].
      split; [apply test_plus_digits; split; assumption|].
      reflexivity.
    + destruct (test tax_percent (a ++ ".")) eqn:E; [|reflexivity].
      exfalso. unfold tax_percent in E.
      apply test_Cat in E as (s1 & s2 & Es & H1 & H2).
      apply test_plus_digits in H1 as [_ H1].
      assert (Hd : all_digits (a ++ ".") = false).
      { rewrite all_digits_append, Ha. reflexivity. }
      apply test_opt in H2 as [-> | H2].
      * rewrite append_empty in Es. subst s1. congruence.
      * apply test_Cat in H2 as (s3 & s4 & -> & H3 & H4).
        apply test_Chr in H3. subst s3.
        apply test_plus_digits in H4 as [Hne4 H4].
        assert (Hlast : forall x y : string,
                  x ++ "." = y ++ "." ++ s4 -> s4 = "").
        { clear -Hne4 H4. intros x. induction x as [| c x IH]; intros y E.
          - destruct y as [| d y]; cbn in E.
            + injection E as E. symmetry. exact E.
            + injection E as _ E. destruct y; discriminate E.
          - destruct y as [| d y]; cbn in E.
            + injection E as -> E.
              assert (D : all_digits (x ++ ".") = true)
                by (rewrite E; exact H4).
              rewrite all_digits_append in D. cbn in D.
              rewrite andb_false_r in D. discriminate D.
            + injection E as _ E. eapply IH. exact E. }
        apply (Hlast a s1) in Es. contradiction.
Qed.

(** X22 -- a card expiry passes exactly when it is two digits, a slash
    and two digits, the first two being a month from 01 to 12. *)
Theorem expiry_is_a_month_and_a_year (s : string) :
  test expiry s = true
  <-> exists m1 m2 y1 y2,
        s = String m1 (String m2 (String "/" (String y1 (String y2 ""))))
        /\ (is_digit m1 && is_digit m2 && is_digit y1 && is_digit y2)%bool
           = true
        /\ (1 <= 10 * digit_value m1 + digit_value m2 <= 12)%nat.
Proof.
  unfold expiry. rewrite test_Cat. split.
  - intros (s1 & s2 & -> & H1 & H2).
    apply test_Cat in H2 as (s3 & s4 & -> & H3 & H4).
    apply test_Chr in H3. subst s3.
    rewrite test_digits_between in H4.
    apply andb_true_iff in H4 as [H4 Hle].
    apply andb_true_iff in H4 as [Hd Hge].
    apply Nat.leb_le in Hle, Hge.
    destruct s4 as [| y1 [| y2 [| ? ?]]]; cbn in Hle, Hge; try lia.
    cbn in Hd. rewrite andb_true_r in Hd.
    rewrite test_Alt in H1. apply orb_true_iff in H1 as [H1 | H1];
      apply test_Cat in H1 as (a & b & -> & Ha & Hb);
      apply test_Chr in Ha; subst a;
      apply test_Range in Hb as (m2 & -> & Hr);
      apply in_range_bounds in Hr; cbn in Hr.
    + exists "0"%char, m2, y1, y2. split; [reflexivity|].
      assert (Hm2 : is_digit m2 = true)
        by (apply in_range_bounds; cbn; lia).
      apply andb_true_iff in Hd as [Hy1 Hy2].
      split; [rewrite Hm2, Hy1, Hy2; reflexivity|].
      unfold digit_value. cbn. lia.
    + exists "1"%char, m2, y1, y2. split; [reflexivity|].
      assert (Hm2 : is_digit m2 = true)
        by (apply in_range_bounds; cbn; lia).
      apply andb_true_iff in Hd as [Hy1 Hy2].
      split; [rewrite Hm2, Hy1, Hy2; reflexivity|].
      unfold digit_value. cbn. lia.
  - intros (m1 & m2 & y1 & y2 & -> & Hd & Hm).
    rewrite !andb_true_iff in Hd. destruct Hd as [[[D1 D2] D3] D4].
    apply in_range_bounds in D1, D2. cbn in D1, D2.
    unfold digit_value in Hm.
    exists (String m1 (String m2 "")), (String "/" (String y1 (String y2 ""))).
    split; [reflexivity|]. split.
    + rewrite test_Alt. apply orb_true_iff.
      assert (Hcases : ((nat_of_ascii m1 = 48 /\ 49 <= nat_of_ascii m2 <= 57)
                        \/ (nat_of_ascii m1 = 49
                            /\ 48 <= nat_of_ascii m2 <= 50))%nat) by lia.
      destruct Hcases as [[E1 R2] | [E1 R2]];
        [left | right];
        apply test_Cat;
        exists (String m1 ""), (String m2 "");
        (split; [reflexivity|]); split.
      * apply test_Chr. f_equal.
        rewrite <- (ascii_nat_embedding m1), E1. reflexivity.
      * apply test_Range. exists m2. split; [reflexivity|].
        apply in_range_bounds. cbn. lia.
      * apply test_Chr. f_equal.
        rewrite <- (ascii_nat_embedding m1), E1. reflexivity.
      * apply test_Range. exists m2. split; [reflexivity|].
        apply in_range_bounds. cbn. lia.
    + apply test_Cat. exists "/", (String y1 (String y2 "")).
      split; [reflexivity|]. split; [reflexivity|].
      rewrite test_digits_between. cbn. rewrite D3, D4. reflexivity.
Qed.

(** X25 -- a quantity passes exactly when it is a non-empty run of
    digits: the pattern does not ask for a positive number, so that a
    quantity written with zeros only passes too. *)
Theorem quantity_is_any_run_of_digits (s : string) :
  (test quantity s = true <-> s <> "" /\ all_digits s = true)
  /\ test quantity (String "0" s)
     = all_digits s.
Proof.
  split; [apply test_plus_digits|].
  unfold quantity, plus. rewrite test_digits_from. cbn.
  rewrite andb_true_r. reflexivity.
Qed.

End SchemaFacts.

(* ------------------------------------------------------------------ *)
(** ** Facts about what is logged *)

Module LogFacts.

Import Validation Auth Tools Handlers Logged.


End LogFacts.
